(** * huge-uploader-nodejs-client: the chunked-transfer control loop

    A shallow embedding of [class HugeUploaderNodeClient] (the constructor,
    [_validateParams], [_getChunk], [_sendChunk], [_manageRetries],
    [_sendChunks] and [_startSending]) together with the properties of the
    transfer controller that the specification states.

    The promise chain of [_sendChunks] is sequential: one read, one POST and
    one classification per invocation, the next invocation being started
    either directly (chunk accepted) or from a timer (retry).  One invocation
    is therefore one step of a state machine over the fields of the object;
    the step returns the observable actions it performed, in order, and
    whether another invocation has been started.

    Left out: the delay of the retry timer and the per-chunk timeout (a
    request that times out is a rejected [fetch]), and the [verbose] log.
    Listeners are assumed to be registered and not to throw; the file is
    assumed not to change while it is uploaded, and reads from an open
    descriptor not to fail. *)

From Stdlib Require Import List String Ascii Bool Arith PeanoNat Lia ZArith.
From Stdlib Require Import QArith Qround.
From Stdlib Require Import DecimalString.
From Stdlib Require Import Floats.PrimFloat Floats.FloatOps Floats.SpecFloat.
From Stdlib Require Import Floats.FloatAxioms.
From Stdlib Require Import Uint63.
Import ListNotations.

Local Open Scope string_scope.
Local Open Scope list_scope.
Local Open Scope nat_scope.

(** ** JavaScript numbers and strings *)

Module JS.

(** Decimal rendering of a non-negative integer inside a template string. *)
Definition show (n : nat) : string := NilEmpty.string_of_uint (Nat.to_uint n).

(** An integer as a binary64 number (exact below 2^53). *)
Definition num (n : nat) : float :=
  PrimFloat.of_uint63 (Uint63.of_Z (Z.of_nat n)).

(** [Math.round]: the nearest integer, ties towards +infinity, computed
    exactly from the mantissa and exponent of the argument.  NaN and the
    infinities are returned unchanged, as are numbers with a non-negative
    exponent (they are integers already). *)
Definition Math_round (x : float) : float :=
  match Prim2SF x with
  | S754_finite s m e =>
      if (0 <=? e)%Z then x
      else
        let half := (2 ^ (- e))%Z in
        let den := (2 ^ (1 - e))%Z in
        if s
        then PrimFloat.opp
               (PrimFloat.of_uint63
                  (Uint63.of_Z (- ((- (2 * Z.pos m) + half) / den))%Z))
        else PrimFloat.of_uint63 (Uint63.of_Z ((2 * Z.pos m + half) / den)%Z)
  | _ => x
  end.

(** [Math.ceil(a / b)] for two integers.  The quotient of two integers
    below 2^53 is never rounded onto or across an integer by binary64
    division (a non-integral quotient k + r/b lies at least 1/b > k * 2^-53
    above k), so the ceiling is that of the exact rational. *)
Definition Math_ceil_div (a b : nat) : nat :=
  Z.to_nat (Qceiling (Z.of_nat a # Pos.of_nat b)).

(** [x || d] for an optional number: [undefined] and [0] are falsy. *)
Definition or_default (x : option nat) (d : nat) : nat :=
  match x with
  | Some (S n) => S n
  | _ => d
  end.

End JS.

(** ** Data *)

Definition bytes := list Byte.byte.

(** Errors that reject a promise or are thrown. *)
Inductive js_error :=
| TypeError (msg : string)
| ENOENT
| EACCES
| EBADF
| FetchError
| RangeError.

(** Settlement of a promise. *)
Inductive result (A : Type) :=
| Resolved (a : A)
| Rejected (e : js_error).
Arguments Resolved {A} a.
Arguments Rejected {A} e.

(** Completion of a synchronous call. *)
Inductive completion (A : Type) :=
| Returned (a : A)
| Threw (e : js_error).
Arguments Returned {A} a.
Arguments Threw {A} e.

(** Header values: the protocol headers are numbers, custom ones strings. *)
Inductive hval :=
| HNum (n : nat)
| HStr (s : string).

Definition headers_t := list (string * hval).

(** [h[k] = v] on an object: an existing key is overwritten in place, a new
    one is added at the end. *)
Fixpoint set_header (k : string) (v : hval) (h : headers_t) : headers_t :=
  match h with
  | [] => [(k, v)]
  | (k', v') :: t =>
      if String.eqb k' k then (k, v) :: t else (k', v') :: set_header k v t
  end.

Fixpoint get_header (k : string) (h : headers_t) : option hval :=
  match h with
  | [] => None
  | (k', v) :: t => if String.eqb k' k then Some v else get_header k t
  end.

(** The descriptor of the source file: [FdUnset] before [fs.open] has
    called back, then open with the cursor of the operating system, then
    closed. *)
Inductive fd_state :=
| FdUnset
| FdOpen (pos : nat)
| FdClosed.

(** What [_getChunk] resolves to when it read something. *)
Record chunk_out := { data : bytes; lastChunk : bool }.

(** One POST: the header object as it is when [fetch] is called and the
    multipart form (the appended post fields, then the [file] part). *)
Record request := {
  req_headers : headers_t;
  req_fields : list (string * string);
  req_file : bytes
}.

Definition req_chunk_number (r : request) : option hval :=
  get_header "uploader-chunk-number" (req_headers r).

(** What the transport answers: a response with a status, or a rejection
    (connection failure, or the per-chunk timeout aborting the request). *)
Inductive outcome :=
| Response (status : nat)
| NetworkFailure.

(** The answers of the network to the successive POSTs of a run. *)
Definition transport := nat -> outcome.

Definition next_answers (net : transport) : transport := fun n => net (S n).

Inductive event :=
| EvFileRetry (message : string) (chunk : nat) (retriesLeft : nat)
| EvError (detail : string)
| EvFinish
| EvProgress (percent : float).

(** Observable actions, in the order in which they happen. *)
Inductive action :=
| Emit (e : event)
| Post (r : request)
| CloseFd.

(** The fields of the object. *)
Record uploader := {
  endpoint : string;
  file : string;
  headers : headers_t;
  postParams : option (list (string * string));
  chunkSizeBytes : nat;
  retries : nat;
  delayBeforeRetry : nat;
  chunk : bytes;
  chunkCount : nat;
  retriesCount : nat;
  fileSize : nat;
  totalChunks : nat;
  fd : fd_state
}.

Definition set_headers (u : uploader) (h : headers_t) : uploader :=
  {| endpoint := endpoint u; file := file u; headers := h;
     postParams := postParams u; chunkSizeBytes := chunkSizeBytes u;
     retries := retries u; delayBeforeRetry := delayBeforeRetry u;
     chunk := chunk u; chunkCount := chunkCount u;
     retriesCount := retriesCount u; fileSize := fileSize u;
     totalChunks := totalChunks u; fd := fd u |}.

Definition set_chunk (u : uploader) (b : bytes) : uploader :=
  {| endpoint := endpoint u; file := file u; headers := headers u;
     postParams := postParams u; chunkSizeBytes := chunkSizeBytes u;
     retries := retries u; delayBeforeRetry := delayBeforeRetry u;
     chunk := b; chunkCount := chunkCount u;
     retriesCount := retriesCount u; fileSize := fileSize u;
     totalChunks := totalChunks u; fd := fd u |}.

Definition set_chunkCount (u : uploader) (n : nat) : uploader :=
  {| endpoint := endpoint u; file := file u; headers := headers u;
     postParams := postParams u; chunkSizeBytes := chunkSizeBytes u;
     retries := retries u; delayBeforeRetry := delayBeforeRetry u;
     chunk := chunk u; chunkCount := n;
     retriesCount := retriesCount u; fileSize := fileSize u;
     totalChunks := totalChunks u; fd := fd u |}.

Definition set_retriesCount (u : uploader) (n : nat) : uploader :=
  {| endpoint := endpoint u; file := file u; headers := headers u;
     postParams := postParams u; chunkSizeBytes := chunkSizeBytes u;
     retries := retries u; delayBeforeRetry := delayBeforeRetry u;
     chunk := chunk u; chunkCount := chunkCount u;
     retriesCount := n; fileSize := fileSize u;
     totalChunks := totalChunks u; fd := fd u |}.

Definition set_fd (u : uploader) (f : fd_state) : uploader :=
  {| endpoint := endpoint u; file := file u; headers := headers u;
     postParams := postParams u; chunkSizeBytes := chunkSizeBytes u;
     retries := retries u; delayBeforeRetry := delayBeforeRetry u;
     chunk := chunk u; chunkCount := chunkCount u;
     retriesCount := retriesCount u; fileSize := fileSize u;
     totalChunks := totalChunks u; fd := f |}.

(** ** The file system *)

Module Fs.

Record entry := { contents : bytes; readable : bool }.

(** The files that exist, by path. *)
Definition t := string -> option entry.

(** [fs.statSync(path).size]; throws when the path does not exist. *)
Definition statSync (fs : t) (path : string) : completion nat :=
  match fs path with
  | Some e => Returned (List.length (contents e))
  | None => Threw ENOENT
  end.

(** [fs.open(path, 'r', cb)]. *)
Definition open (fs : t) (path : string) : result fd_state :=
  match fs path with
  | Some e => if readable e then Resolved (FdOpen 0) else Rejected EACCES
  | None => Rejected ENOENT
  end.

(** [fs.read(fd, buffer, 0, length, null, cb)]: with a [null] position the
    bytes are taken at the cursor of the descriptor, which moves past
    them.  The bytes land at offset 0 of the buffer, whose tail is left as
    it was.  Returns the descriptor, the buffer and [nread]. *)
Definition read (disk : bytes) (f : fd_state) (buffer : bytes) (length : nat)
  : result (fd_state * bytes * nat) :=
  match f with
  | FdOpen pos =>
      let got := firstn length (skipn pos disk) in
      let nread := List.length got in
      Resolved (FdOpen (pos + nread), got ++ skipn nread buffer, nread)
  | _ => Rejected EBADF
  end.

(** [fs.close(fd, cb)]. *)
Definition close (f : fd_state) : result fd_state :=
  match f with
  | FdOpen _ => Resolved FdClosed
  | _ => Rejected EBADF
  end.

End Fs.

(** ** The constructor *)

(** The settings object.  [p_chunkSizeBytes] stands for the product
    [chunkSize * 1024 * 1024] of the caller's [chunkSize], a number of
    megabytes that may be fractional ([n] bytes are [n / 2^20] megabytes),
    when this product is a whole number of bytes; the products that are not
    are the matter of [Fractional] below. *)
Record params := {
  p_endpoint : string;
  p_file : string;
  p_headers : option headers_t;
  p_postParams : option (list (string * string));
  p_chunkSizeBytes : option nat;
  p_retries : option nat;
  p_delayBeforeRetry : option nat
}.

(** [_validateParams]: with typed settings only the test on the endpoint
    can fail. *)
Definition validateParams (u : uploader) : completion unit :=
  if Nat.eqb (String.length (endpoint u)) 0
  then Threw (TypeError "endpoint must be defined")
  else Returned tt.

(** The default [chunkSize] of 10 megabytes, in bytes. *)
Definition default_chunkSizeBytes : nat := 10 * 1024 * 1024.
Global Opaque default_chunkSizeBytes.

(** [Buffer.alloc(n)]: [n] zero bytes. *)
Definition Buffer_alloc (n : nat) : bytes := repeat Byte.x00 n.

(** [new HugeUploaderNodeClient(params)] up to the call of [_startSending].
    [uniq] is [Math.floor(Math.random() * 100000000) + Date.now()]. *)
Definition constructor (fs : Fs.t) (uniq : nat) (p : params)
  : completion uploader :=
  let csb := match p_chunkSizeBytes p with
             | Some (S n) => S n
             | _ => default_chunkSizeBytes
             end in
  let u0 :=
    {| endpoint := p_endpoint p;
       file := p_file p;
       headers := match p_headers p with Some h => h | None => [] end;
       postParams := p_postParams p;
       chunkSizeBytes := csb;
       retries := JS.or_default (p_retries p) 5;
       delayBeforeRetry := JS.or_default (p_delayBeforeRetry p) 5;
       chunk := Buffer_alloc csb;
       chunkCount := 0;
       retriesCount := 0;
       fileSize := 0;
       totalChunks := 0;
       fd := FdUnset |} in
  match validateParams u0 with
  | Threw e => Threw e
  | Returned _ =>
      match Fs.statSync fs (file u0) with
      | Threw e => Threw e
      | Returned size =>
          let total := JS.Math_ceil_div size (chunkSizeBytes u0) in
          let h1 := set_header "uploader-file-id" (HNum (uniq + size))
                      (headers u0) in
          let h2 := set_header "uploader-chunks-total" (HNum total) h1 in
          Returned
            {| endpoint := endpoint u0; file := file u0; headers := h2;
               postParams := postParams u0;
               chunkSizeBytes := chunkSizeBytes u0;
               retries := retries u0;
               delayBeforeRetry := delayBeforeRetry u0;
               chunk := chunk u0; chunkCount := 0; retriesCount := 0;
               fileSize := size; totalChunks := total; fd := FdUnset |}
      end
  end.

(** ** The reader, the sender and the controller *)

(** [_getChunk]: read up to [chunkSizeBytes] bytes into the shared buffer.
    Resolves to [None] ([undefined]) after closing the descriptor when
    nothing was read. *)
Definition getChunk (disk : bytes) (u : uploader)
  : uploader * list action * result (option chunk_out) :=
  match Fs.read disk (fd u) (chunk u) (chunkSizeBytes u) with
  | Rejected e => (u, [], Rejected e)
  | Resolved (f, buffer, nread) =>
      let u1 := set_chunk (set_fd u f) buffer in
      if nread =? 0 then
        match Fs.close (fd u1) with
        | Rejected e => (u1, [], Rejected e)
        | Resolved f' => (set_fd u1 f', [CloseFd], Resolved None)
        end
      else if nread <? chunkSizeBytes u1 then
        (u1, [],
         Resolved (Some {| data := firstn nread (chunk u1); lastChunk := true |}))
      else
        (u1, [], Resolved (Some {| data := chunk u1; lastChunk := false |}))
  end.

(** [Object.keys(this.postParams)] followed by the appends: throws on
    [undefined]. *)
Definition post_fields (u : uploader) : completion (list (string * string)) :=
  match postParams u with
  | Some pp => Returned pp
  | None => Threw (TypeError "Cannot convert undefined or null to object")
  end.

(** [_sendChunk]: build the form, overwrite the chunk-number header, POST.
    The argument is destructured, which throws on [undefined]. *)
Definition sendChunk (net : transport) (u : uploader) (out : option chunk_out)
  : uploader * transport * list action * result nat :=
  match out with
  | None =>
      (u, net, [], Rejected (TypeError "Cannot destructure property 'data'"))
  | Some o =>
      match (if lastChunk o then post_fields u else Returned []) with
      | Threw e => (u, net, [], Rejected e)
      | Returned fields =>
          let u1 := set_headers u
                      (set_header "uploader-chunk-number"
                         (HNum (chunkCount u)) (headers u)) in
          let req := {| req_headers := headers u1;
                        req_fields := fields;
                        req_file := data o |} in
          (u1, next_answers net, [Post req],
           match net 0 with
           | Response status => Resolved status
           | NetworkFailure => Rejected FetchError
           end)
      end
  end.

(** [_manageRetries].  The boolean tells whether [_sendChunks] has been
    scheduled again. *)
Definition manageRetries (u : uploader) : uploader * list action * bool :=
  let u1 := set_retriesCount u (S (retriesCount u)) in
  if retriesCount u <? retries u then
    (u1,
     [Emit (EvFileRetry
              ("An error occured uploading chunk " ++ JS.show (chunkCount u1)
               ++ ". " ++ JS.show (retries u1 - retriesCount u1)
               ++ " retries left")
              (chunkCount u1)
              (retries u1 - retriesCount u1))],
     true)
  else
    (u1,
     [Emit (EvError
              ("An error occured uploading chunk " ++ JS.show (chunkCount u1)
               ++ ". No more retries, stopping upload"))],
     false).

(** [Math.round((100 / this.totalChunks) * this.chunkCount)], in binary64. *)
Definition percentProgress (totalChunks chunkCount : nat) : float :=
  JS.Math_round
    (PrimFloat.mul (PrimFloat.div (JS.num 100) (JS.num totalChunks))
       (JS.num chunkCount)).

(** The callback of [_sendChunks] that receives the response.  When the
    next chunk is started from here its read completes only after the
    progress event has been emitted, so the event comes first. *)
Definition onResponse (u : uploader) (status : nat)
  : uploader * list action * bool :=
  if (status =? 200) || (status =? 201) || (status =? 204) then
    let u1 := set_chunkCount u (S (chunkCount u)) in
    let again := chunkCount u1 <? totalChunks u1 in
    (u1,
     (if again then [] else [Emit EvFinish])
       ++ [Emit (EvProgress
                   (percentProgress (totalChunks u1) (chunkCount u1)))],
     again)
  else if existsb (Nat.eqb status) [408; 502; 503; 504] then
    manageRetries u
  else
    (u,
     [Emit (EvError
              ("Server responded with " ++ JS.show status
               ++ ". Stopping upload"))],
     false).

(** One invocation of [_sendChunks]: any rejection along the chain ends in
    the [catch], which calls [_manageRetries]. *)
Definition sendChunks (disk : bytes) (net : transport) (u : uploader)
  : uploader * transport * list action * bool :=
  match getChunk disk u with
  | (u1, a1, Rejected _) =>
      let '(u2, a2, again) := manageRetries u1 in
      (u2, net, a1 ++ a2, again)
  | (u1, a1, Resolved out) =>
      match sendChunk net u1 out with
      | (u2, net2, a2, Rejected _) =>
          let '(u3, a3, again) := manageRetries u2 in
          (u3, net2, a1 ++ a2 ++ a3, again)
      | (u2, net2, a2, Resolved status) =>
          let '(u3, a3, again) := onResponse u2 status in
          (u3, net2, a1 ++ a2 ++ a3, again)
      end
  end.

(** The invocations of [_sendChunks] that follow one another, at most
    [fuel] of them.  The boolean tells that the chain came to its end. *)
Fixpoint run (fuel : nat) (disk : bytes) (net : transport) (u : uploader)
  : list action * uploader * bool :=
  match fuel with
  | 0 => ([], u, false)
  | S fuel' =>
      let '(u1, net1, acts, again) := sendChunks disk net u in
      if again then
        let '(rest, u2, done) := run fuel' disk net1 u1 in
        (acts ++ rest, u2, done)
      else (acts, u1, true)
  end.

(** Invocations that certainly suffice: each one that starts another either
    accepts a chunk that is not the last or uses up one retry. *)
Definition budget (u : uploader) : nat :=
  S ((totalChunks u - chunkCount u) + (retries u - retriesCount u)).

Definition disk_of (fs : Fs.t) (path : string) : bytes :=
  match fs path with
  | Some e => Fs.contents e
  | None => []
  end.

(** [_startSending]. *)
Definition startSending (fs : Fs.t) (net : transport) (u : uploader)
  : list action * uploader * bool :=
  match Fs.open fs (file u) with
  | Rejected _ =>
      ([Emit (EvError "Failed starting to sending chunks")], u, true)
  | Resolved f =>
      let u1 := set_fd u f in
      run (budget u1) (disk_of fs (file u)) net u1
  end.

(** A whole session: what the caller of [new] gets, and the actions that
    follow asynchronously. *)
Definition session (fs : Fs.t) (uniq : nat) (net : transport) (p : params)
  : completion (list action) :=
  match constructor fs uniq p with
  | Threw e => Threw e
  | Returned u => Returned (fst (fst (startSending fs net u)))
  end.

(** ** Reading a trace *)

Definition events (l : list action) : list event :=
  flat_map (fun a => match a with Emit e => [e] | _ => [] end) l.

Definition posts (l : list action) : list request :=
  flat_map (fun a => match a with Post r => [r] | _ => [] end) l.

Definition is_retry (e : event) : bool :=
  match e with EvFileRetry _ _ _ => true | _ => false end.

Definition is_error (e : event) : bool :=
  match e with EvError _ => true | _ => false end.

Definition is_progress (e : event) : bool :=
  match e with EvProgress _ => true | _ => false end.

Definition is_terminal (e : event) : bool :=
  match e with EvError _ | EvFinish => true | _ => false end.

(** ** Concrete material for examples *)

Module Sample.

Definition b (n : nat) : Byte.byte :=
  match Byte.of_nat n with Some x => x | None => Byte.x00 end.

(** The bytes [1 .. n]. *)
Definition content (n : nat) : bytes := map b (seq 1 n).

Definition one_file (path : string) (e : Fs.entry) : Fs.t :=
  fun q => if String.eqb q path then Some e else None.

Definition settings (csb r : nat) (pp : option (list (string * string)))
  : params :=
  {| p_endpoint := "http://host/upload"; p_file := "/f";
     p_headers := None; p_postParams := pp;
     p_chunkSizeBytes := Some csb; p_retries := Some r;
     p_delayBeforeRetry := None |}.

(** The same settings without a chunk size. *)
Definition unsized (r : nat) (pp : option (list (string * string)))
  : params :=
  {| p_endpoint := "http://host/upload"; p_file := "/f";
     p_headers := None; p_postParams := pp;
     p_chunkSizeBytes := None; p_retries := Some r;
     p_delayBeforeRetry := None |}.

Definition fs_with (n : nat) : Fs.t :=
  one_file "/f" {| Fs.contents := content n; Fs.readable := true |}.

Definition blank : uploader :=
  {| endpoint := ""; file := ""; headers := []; postParams := None;
     chunkSizeBytes := 1; retries := 0; delayBeforeRetry := 0;
     chunk := []; chunkCount := 0; retriesCount := 0; fileSize := 0;
     totalChunks := 0; fd := FdUnset |}.

(** The object built for a file of [n] bytes, once [fs.open] has called
    back. *)
Definition opened (n csb r : nat) (pp : option (list (string * string)))
  : uploader :=
  match constructor (fs_with n) 7 (settings csb r pp) with
  | Returned u => set_fd u (FdOpen 0)
  | Threw _ => blank
  end.

(** The object built for a file of [n] bytes, as [new] returns it. *)
Definition constructed (n csb r : nat)
  (pp : option (list (string * string))) : uploader :=
  match constructor (fs_with n) 7 (settings csb r pp) with
  | Returned u => u
  | Threw _ => blank
  end.

(** The actions of a session whose constructor returned. *)
Definition actions_of (c : completion (list action)) : list action :=
  match c with
  | Returned acts => acts
  | Threw _ => []
  end.

(** The statuses of [l] in turn, then [200] for ever. *)
Definition answers (l : list nat) : transport :=
  fun n => Response (nth n l 200).

End Sample.

(** ** Vocabulary of the properties *)

Definition accepted_status (s : nat) : Prop := In s [200; 201; 204].
Definition retryable_status (s : nat) : Prop := In s [408; 502; 503; 504].

(** The events of [_manageRetries] and of the last branch of the response
    callback, by the state they are emitted in. *)
Definition retry_notice (u : uploader) : event :=
  EvFileRetry
    ("An error occured uploading chunk " ++ JS.show (chunkCount u) ++ ". "
     ++ JS.show (retries u - S (retriesCount u)) ++ " retries left")
    (chunkCount u) (retries u - S (retriesCount u)).

Definition exhausted (u : uploader) : event :=
  EvError ("An error occured uploading chunk " ++ JS.show (chunkCount u)
           ++ ". No more retries, stopping upload").

Definition refused (status : nat) : event :=
  EvError ("Server responded with " ++ JS.show status ++ ". Stopping upload").

(** Fields that are assigned in the constructor only. *)
Definition same_settings (u u' : uploader) : Prop :=
  endpoint u' = endpoint u /\ file u' = file u /\
  postParams u' = postParams u /\ chunkSizeBytes u' = chunkSizeBytes u /\
  retries u' = retries u /\ fileSize u' = fileSize u /\
  totalChunks u' = totalChunks u.

(** An invocation either has its chunk accepted, or is refused for good by
    the server, or fails in a way that goes through [_manageRetries]. *)
Inductive step_shape (net : transport) (u u' : uploader) (net' : transport)
  (acts : list action) (again : bool) : Prop :=
| StepAccepted (req : request) (status : nat) :
    posts acts = [req] ->
    net 0 = Response status ->
    accepted_status status ->
    net' = next_answers net ->
    chunkCount u' = S (chunkCount u) ->
    retriesCount u' = retriesCount u ->
    again = (S (chunkCount u) <? totalChunks u) ->
    events acts =
      (if again then [] else [EvFinish])
        ++ [EvProgress (percentProgress (totalChunks u') (chunkCount u'))] ->
    step_shape net u u' net' acts again
| StepRefused (req : request) (status : nat) :
    posts acts = [req] ->
    net 0 = Response status ->
    ~ accepted_status status ->
    ~ retryable_status status ->
    net' = next_answers net ->
    chunkCount u' = chunkCount u ->
    retriesCount u' = retriesCount u ->
    again = false ->
    events acts = [refused status] ->
    step_shape net u u' net' acts again
| StepFailed :
    (posts acts = [] /\ net' = net \/
     exists req, posts acts = [req] /\ net' = next_answers net /\
       (net 0 = NetworkFailure \/
        exists status, net 0 = Response status /\ retryable_status status)) ->
    chunkCount u' = chunkCount u ->
    retriesCount u' = S (retriesCount u) ->
    again = (retriesCount u <? retries u) ->
    events acts = [if again then retry_notice u else exhausted u] ->
    step_shape net u u' net' acts again.

Definition step_state (r : uploader * transport * list action * bool)
  : uploader := fst (fst (fst r)).
Definition step_actions (r : uploader * transport * list action * bool)
  : list action := snd (fst r).
Definition step_again (r : uploader * transport * list action * bool)
  : bool := snd r.

Definition run_actions (r : list action * uploader * bool) : list action :=
  fst (fst r).
Definition run_state (r : list action * uploader * bool) : uploader :=
  snd (fst r).
Definition run_done (r : list action * uploader * bool) : bool := snd r.

Definition count_retries (l : list action) : nat :=
  List.length (filter is_retry (events l)).

(** Events before the one that ends the session. *)
Definition quiet (l : list event) : Prop :=
  Forall (fun e => is_terminal e = false) l.

(** How the events of a session that came to its end are laid out: a
    prefix without terminal event, then either one error, or the finish
    event with the progress event of the last chunk behind it. *)
Definition well_ended (l : list event) : Prop :=
  exists front,
    quiet front /\
    ((exists d, l = front ++ [EvError d]) \/
     (exists p, l = front ++ [EvFinish; EvProgress p])).

(** The retry notice for chunk [i] with [left] retries left, and the error
    of exhaustion for chunk [i]. *)
Definition notice (i left : nat) : event :=
  EvFileRetry
    ("An error occured uploading chunk " ++ JS.show i ++ ". "
     ++ JS.show left ++ " retries left")
    i left.

Definition no_more_retries (i : nat) : event :=
  EvError ("An error occured uploading chunk " ++ JS.show i
           ++ ". No more retries, stopping upload").

(** [n - 1; ...; 1; 0]. *)
Definition countdown (n : nat) : list nat := rev (seq 0 n).

(** An answer that the controller takes for a transient failure. *)
Definition transient (o : outcome) : Prop :=
  match o with
  | Response status => retryable_status status
  | NetworkFailure => True
  end.

(** The situation of a session without post parameters on a file whose last
    chunk is short: a chunk is counted only after a full read, so the
    cursor is never behind the chunks counted. *)
Definition unfinishable (disk : bytes) (u : uploader) : Prop :=
  postParams u = None /\
  0 < chunkSizeBytes u /\
  List.length (chunk u) = chunkSizeBytes u /\
  totalChunks u = JS.Math_ceil_div (List.length disk) (chunkSizeBytes u) /\
  List.length disk mod chunkSizeBytes u <> 0 /\
  match fd u with
  | FdOpen pos => chunkCount u * chunkSizeBytes u <= pos <= List.length disk
  | _ => True
  end.

(** A request that carries a full chunk and no post field. *)
Definition plain_full_chunk (c : nat) (q : request) : Prop :=
  req_fields q = [] /\ List.length (req_file q) = c.

(** Answers among which there is no permanent refusal. *)
Definition never_refused (net : transport) : Prop :=
  forall n,
    match net n with
    | Response status => accepted_status status \/ retryable_status status
    | NetworkFailure => True
    end.

(** An attempt whose POST was answered with a status of the success set. *)
Definition accepted_attempt (net : transport) (acts : list action) : Prop :=
  exists req status,
    posts acts = [req] /\ net 0 = Response status /\ accepted_status status.

(** The integer nearest to [100 * count / total], ties upwards. *)
Definition nearest_percent (total count : nat) : nat :=
  Z.to_nat ((200 * Z.of_nat count + Z.of_nat total) / (2 * Z.of_nat total)).

(** Whether the binary64 computation of the percentage gives the nearest
    integer for every count up to the total, for the totals [1 .. bound]. *)
Definition percent_is_nearest_upto (bound : nat) : bool :=
  forallb
    (fun total =>
       forallb
         (fun count =>
            PrimFloat.Leibniz.eqb (percentProgress total count)
              (JS.num (nearest_percent total count)))
         (seq 0 (S total)))
    (seq 1 bound).

(** A server that accepts every chunk. *)
Definition always_accepted (net : transport) : Prop :=
  forall n, exists status, net n = Response status /\ accepted_status status.

(** ** Vocabulary of the further properties *)

Definition is_close (a : action) : bool :=
  match a with CloseFd => true | _ => false end.

(** How often the descriptor is closed. *)
Definition count_closes (l : list action) : nat :=
  List.length (filter is_close l).

(** Requests numbered from [i] on, each with the number of its predecessor
    or the next one. *)
Fixpoint indexed_from (i : nat) (l : list request) : Prop :=
  match l with
  | [] => True
  | q :: t =>
      req_chunk_number q = Some (HNum i) /\
      (indexed_from i t \/ indexed_from (S i) t)
  end.

(** The form of a request: a part of one byte at least and [chunkSizeBytes]
    at most, without post field when the part is full, with the post
    parameters when it is short. *)
Definition well_formed_request (u : uploader) (q : request) : Prop :=
  0 < List.length (req_file q) <= chunkSizeBytes u /\
  (List.length (req_file q) = chunkSizeBytes u -> req_fields q = []) /\
  (List.length (req_file q) < chunkSizeBytes u ->
   postParams u = Some (req_fields q)).

(** The object as the constructor leaves it, for what the runs depend on. *)
Definition fresh (disk : bytes) (u : uploader) : Prop :=
  0 < chunkSizeBytes u /\
  List.length (chunk u) = chunkSizeBytes u /\
  totalChunks u = JS.Math_ceil_div (List.length disk) (chunkSizeBytes u) /\
  chunkCount u = 0 /\ retriesCount u = 0 /\ 0 < retries u.

(** The cursor is where the chunks counted so far end. *)
Definition on_track (disk : bytes) (u : uploader) : Prop :=
  0 < chunkSizeBytes u /\
  List.length (chunk u) = chunkSizeBytes u /\
  totalChunks u = JS.Math_ceil_div (List.length disk) (chunkSizeBytes u) /\
  fd u = FdOpen (chunkCount u * chunkSizeBytes u).

(** The cursor is ahead of the chunks counted, or nothing can be read. *)
Definition derailed (disk : bytes) (u : uploader) : Prop :=
  0 < chunkSizeBytes u /\
  List.length (chunk u) = chunkSizeBytes u /\
  totalChunks u = JS.Math_ceil_div (List.length disk) (chunkSizeBytes u) /\
  match fd u with
  | FdOpen pos =>
      List.length disk <= pos \/ S (chunkCount u) * chunkSizeBytes u <= pos
  | _ => True
  end.


Definition count_progress (l : list action) : nat :=
  List.length (filter is_progress (events l)).

(** The [retriesLeft] fields of the retry notices, in order. *)
Definition retries_left (l : list action) : list nat :=
  flat_map (fun e => match e with
                     | EvFileRetry _ _ n => [n]
                     | _ => []
                     end)
    (events l).

(** ** Chunk sizes that are not a whole number of bytes

    [chunkSize] is any Number of megabytes, and the product
    [chunkSize * 1024 * 1024] is used as it is: nothing rounds it.  The
    definitions above take it to be a whole number of bytes.  The ones below
    are the same code for any product [c], taken as a rational ([0] stands
    for a [chunkSize] that is missing or zero, which line 118 replaces by
    10): [Buffer.alloc(c)] throws when [c] is negative and otherwise, like
    [fs.read(fd, buffer, 0, c, null, cb)], keeps the integer part of [c];
    the test [nread < this.chunkSizeBytes] and the division
    [this.fileSize / this.chunkSizeBytes] use [c] itself.  The quotient is
    taken exactly, which is what the division of the code gives when [c] is
    a whole number and in the examples below.  The field [chunkSizeBytes] of
    the record then holds the integer part. *)

Module Fractional.

(** What [Buffer.alloc] and [fs.read] make of a length: its integer part. *)
Definition whole_bytes (c : Q) : nat := Z.to_nat (Qfloor c).

(** [nread < this.chunkSizeBytes]. *)
Definition below (nread : nat) (c : Q) : bool :=
  negb (Qle_bool c (inject_Z (Z.of_nat nread))).

(** [Math.ceil(this.fileSize / this.chunkSizeBytes)]. *)
Definition totalChunks_of (size : nat) (c : Q) : nat :=
  Z.to_nat (Qceiling (inject_Z (Z.of_nat size) / c)).

(** [(params.chunkSize || 10) * 1024 * 1024]. *)
Definition chunkSizeBytes_of (c : Q) : Q :=
  if Qeq_bool c 0 then inject_Z (Z.of_nat default_chunkSizeBytes) else c.

(** The constructor, for settings whose [chunkSize] gives the product [c0]
    (the field [p_chunkSizeBytes] is not looked at). *)
Definition constructor (fs : Fs.t) (uniq : nat) (p : params) (c0 : Q)
  : completion uploader :=
  let c := chunkSizeBytes_of c0 in
  if negb (Qle_bool 0 c) then Threw RangeError else
  let u0 :=
    {| endpoint := p_endpoint p;
       file := p_file p;
       headers := match p_headers p with Some h => h | None => [] end;
       postParams := p_postParams p;
       chunkSizeBytes := whole_bytes c;
       retries := JS.or_default (p_retries p) 5;
       delayBeforeRetry := JS.or_default (p_delayBeforeRetry p) 5;
       chunk := Buffer_alloc (whole_bytes c);
       chunkCount := 0;
       retriesCount := 0;
       fileSize := 0;
       totalChunks := 0;
       fd := FdUnset |} in
  match validateParams u0 with
  | Threw e => Threw e
  | Returned _ =>
      match Fs.statSync fs (file u0) with
      | Threw e => Threw e
      | Returned size =>
          let total := totalChunks_of size c in
          let h1 := set_header "uploader-file-id" (HNum (uniq + size))
                      (headers u0) in
          let h2 := set_header "uploader-chunks-total" (HNum total) h1 in
          Returned
            {| endpoint := endpoint u0; file := file u0; headers := h2;
               postParams := postParams u0;
               chunkSizeBytes := chunkSizeBytes u0;
               retries := retries u0;
               delayBeforeRetry := delayBeforeRetry u0;
               chunk := chunk u0; chunkCount := 0; retriesCount := 0;
               fileSize := size; totalChunks := total; fd := FdUnset |}
      end
  end.

(** [_getChunk]. *)
Definition getChunk (c : Q) (disk : bytes) (u : uploader)
  : uploader * list action * result (option chunk_out) :=
  match Fs.read disk (fd u) (chunk u) (whole_bytes c) with
  | Rejected e => (u, [], Rejected e)
  | Resolved (f, buffer, nread) =>
      let u1 := set_chunk (set_fd u f) buffer in
      if nread =? 0 then
        match Fs.close (fd u1) with
        | Rejected e => (u1, [], Rejected e)
        | Resolved f' => (set_fd u1 f', [CloseFd], Resolved None)
        end
      else if below nread c then
        (u1, [],
         Resolved (Some {| data := firstn nread (chunk u1); lastChunk := true |}))
      else
        (u1, [], Resolved (Some {| data := chunk u1; lastChunk := false |}))
  end.

(** One invocation of [_sendChunks]. *)
Definition sendChunks (c : Q) (disk : bytes) (net : transport) (u : uploader)
  : uploader * transport * list action * bool :=
  match getChunk c disk u with
  | (u1, a1, Rejected _) =>
      let '(u2, a2, again) := manageRetries u1 in
      (u2, net, a1 ++ a2, again)
  | (u1, a1, Resolved out) =>
      match sendChunk net u1 out with
      | (u2, net2, a2, Rejected _) =>
          let '(u3, a3, again) := manageRetries u2 in
          (u3, net2, a1 ++ a2 ++ a3, again)
      | (u2, net2, a2, Resolved status) =>
          let '(u3, a3, again) := onResponse u2 status in
          (u3, net2, a1 ++ a2 ++ a3, again)
      end
  end.

Fixpoint run (c : Q) (fuel : nat) (disk : bytes) (net : transport)
  (u : uploader) : list action * uploader * bool :=
  match fuel with
  | 0 => ([], u, false)
  | S fuel' =>
      let '(u1, net1, acts, again) := sendChunks c disk net u in
      if again then
        let '(rest, u2, done) := run c fuel' disk net1 u1 in
        (acts ++ rest, u2, done)
      else (acts, u1, true)
  end.

(** [_startSending]. *)
Definition startSending (c : Q) (fs : Fs.t) (net : transport) (u : uploader)
  : list action * uploader * bool :=
  match Fs.open fs (file u) with
  | Rejected _ =>
      ([Emit (EvError "Failed starting to sending chunks")], u, true)
  | Resolved f =>
      let u1 := set_fd u f in
      run c (budget u1) (disk_of fs (file u)) net u1
  end.

Definition session (fs : Fs.t) (uniq : nat) (net : transport) (p : params)
  (c : Q) : completion (list action) :=
  match constructor fs uniq p c with
  | Threw e => Threw e
  | Returned u =>
      Returned (fst (fst (startSending (chunkSizeBytes_of c) fs net u)))
  end.

End Fractional.

(** The settings [p] with a chunk size of [n] bytes. *)
Definition with_chunk_bytes (p : params) (n : nat) : params :=
  {| p_endpoint := p_endpoint p; p_file := p_file p;
     p_headers := p_headers p; p_postParams := p_postParams p;
     p_chunkSizeBytes := Some n; p_retries := p_retries p;
     p_delayBeforeRetry := p_delayBeforeRetry p |}.
(** ** Basic facts *)

Lemma get_set_header (k : string) (v : hval) (h : headers_t) :
  get_header k (set_header k v h) = Some v.
Proof.
  induction h as [|[k' v'] t IH]; simpl.
  - now rewrite String.eqb_refl.
  - destruct (String.eqb k' k) eqn:E; simpl.
    + now rewrite String.eqb_refl.
    + now rewrite E.
Qed.

(** The ceiling of the quotient is the least number of chunks of [c] bytes
    that hold [s] bytes. *)
Lemma Math_ceil_div_spec (s c : nat) :
  0 < c ->
  s <= JS.Math_ceil_div s c * c /\ JS.Math_ceil_div s c * c < s + c.
Proof.
  intros Hc. unfold JS.Math_ceil_div, Qceiling, Qfloor, Qopp. simpl.
  assert (Hp : Z.pos (Pos.of_nat c) = Z.of_nat c).
  { rewrite <- positive_nat_Z, Nat2Pos.id by lia. reflexivity. }
  rewrite Hp.
  set (z := (- Z.of_nat s / Z.of_nat c)%Z).
  assert (Hz : (z * Z.of_nat c <= - Z.of_nat s < (z + 1) * Z.of_nat c)%Z).
  { pose proof (Z.div_mod (- Z.of_nat s) (Z.of_nat c) ltac:(lia)) as E.
    pose proof (Z.mod_pos_bound (- Z.of_nat s) (Z.of_nat c) ltac:(lia)) as B.
    fold z in E. nia. }
  assert (Hn : (z <= 0)%Z) by nia.
  split.
  - apply Nat2Z.inj_le. rewrite Nat2Z.inj_mul, Z2Nat.id by lia. nia.
  - apply Nat2Z.inj_lt. rewrite Nat2Z.inj_mul, Nat2Z.inj_add, Z2Nat.id by lia.
    nia.
Qed.

(** What a read at the cursor returns. *)
Lemma length_read (disk : bytes) (pos c : nat) :
  List.length (firstn c (skipn pos disk)) = Nat.min c (List.length disk - pos).
Proof. now rewrite length_firstn, length_skipn. Qed.

(** The three ways in which [_manageRetries] is reached keep its verdict. *)
Lemma manageRetries_spec (u : uploader) :
  manageRetries u =
    (set_retriesCount u (S (retriesCount u)),
     (if retriesCount u <? retries u
      then [Emit (EvFileRetry
                    ("An error occured uploading chunk "
                     ++ JS.show (chunkCount u) ++ ". "
                     ++ JS.show (retries u - S (retriesCount u))
                     ++ " retries left")
                    (chunkCount u) (retries u - S (retriesCount u)))]
      else [Emit (EvError
                    ("An error occured uploading chunk "
                     ++ JS.show (chunkCount u)
                     ++ ". No more retries, stopping upload"))]),
     retriesCount u <? retries u).
Proof. unfold manageRetries. now destruct (retriesCount u <? retries u). Qed.

(** ** The shape of one invocation of [_sendChunks] *)

Lemma same_settings_refl (u : uploader) : same_settings u u.
Proof. repeat split. Qed.

Lemma status_tests (s : nat) :
  ((s =? 200) || (s =? 201) || (s =? 204) = true <-> accepted_status s) /\
  (existsb (Nat.eqb s) [408; 502; 503; 504] = true <-> retryable_status s).
Proof.
  unfold accepted_status, retryable_status. split.
  - rewrite !orb_true_iff, !Nat.eqb_eq. simpl. intuition congruence.
  - rewrite existsb_exists. split.
    + intros [x [Hin Hx]]. apply Nat.eqb_eq in Hx. now subst.
    + intros H. exists s. split; [assumption | apply Nat.eqb_refl].
Qed.

Lemma getChunk_settings (disk : bytes) (u u1 : uploader) a r :
  getChunk disk u = (u1, a, r) ->
  same_settings u u1 /\ chunkCount u1 = chunkCount u /\
  retriesCount u1 = retriesCount u /\ headers u1 = headers u /\
  events a = [] /\ posts a = [].
Proof.
  unfold getChunk, Fs.read, Fs.close. intros H.
  destruct (fd u) as [|pos|]; simpl in H;
    try (inversion H; subst; repeat split; fail).
  destruct (_ =? 0); simpl in H.
  - inversion H; subst; repeat split.
  - destruct (_ <? _); inversion H; subst; repeat split.
Qed.

Lemma events_app (l1 l2 : list action) :
  events (l1 ++ l2) = events l1 ++ events l2.
Proof. apply flat_map_app. Qed.

Lemma posts_app (l1 l2 : list action) :
  posts (l1 ++ l2) = posts l1 ++ posts l2.
Proof. apply flat_map_app. Qed.

(** Closes the case of an invocation that ended in [_manageRetries]. *)
Ltac failed_step H EA PA LT :=
  try unfold sendChunk in H; cbv beta iota zeta in H;
  rewrite manageRetries_spec in H;
  cbn [retriesCount retries set_headers] in H;
  match type of H with
  | context [?a <? ?b] => destruct (a <? b) eqn:?
  end;
  inversion H; subst; clear H;
  (split; [repeat split; cbn [retries totalChunks postParams chunkSizeBytes
                                fileSize endpoint file set_retriesCount
                                set_headers]; congruence|]);
  (split;
   [ apply StepFailed;
     [ rewrite ?PA; cbn [posts flat_map app];
       first [ left; split; reflexivity
             | right; eexists; split; [reflexivity|]; split; [reflexivity|];
               eauto ]
     | cbn [chunkCount set_retriesCount set_headers]; congruence
     | cbn [retriesCount set_retriesCount set_headers]; congruence
     | pose proof LT; congruence
     | rewrite ?EA; cbn [events flat_map app];
       unfold retry_notice, exhausted; simpl; congruence ]
   | rewrite ?PA; cbn [posts flat_map app]; repeat constructor;
     try (unfold req_chunk_number; cbn [req_headers headers set_headers];
                rewrite get_set_header; congruence) ]).

Lemma step_shape_sound (disk : bytes) (net : transport) (u : uploader)
  u' net' acts again :
  sendChunks disk net u = (u', net', acts, again) ->
  same_settings u u' /\ step_shape net u u' net' acts again /\
  Forall (fun r => req_chunk_number r = Some (HNum (chunkCount u)))
    (posts acts).
Proof.
  unfold sendChunks. intros H.
  destruct (getChunk disk u) as [[u1 a1] r] eqn:G.
  destruct (getChunk_settings _ _ _ _ _ G)
    as ((S1 & S2 & S3 & S4 & S5 & S6 & S7) & C1 & R1 & H1 & E1 & P1).
  assert (EA : forall l, events (a1 ++ l) = events l).
  { intros l. now rewrite events_app, E1. }
  assert (PA : forall l, posts (a1 ++ l) = posts l).
  { intros l. now rewrite posts_app, P1. }
  assert (LT' : (retriesCount u1 <? retries u1)
               = (retriesCount u <? retries u)).
  { now rewrite R1, S5. }
  clear G E1 P1.
  destruct r as [[o|] | e];
    [ | failed_step H EA PA LT' | failed_step H EA PA LT' ].
  unfold sendChunk in H.
  destruct (if lastChunk o then post_fields u1 else Returned [])
    as [fields | e]; [ | failed_step H EA PA LT' ].
  cbv beta iota zeta in H.
  destruct (net 0) as [status|] eqn:N; [ | failed_step H EA PA LT' ].
  unfold onResponse in H.
  destruct (status_tests status) as [TA TR].
  destruct ((status =? 200) || (status =? 201) || (status =? 204)) eqn:A.
  - cbv beta iota zeta in H.
    cbn [chunkCount totalChunks set_chunkCount set_headers] in H.
    revert H.
    destruct (S (chunkCount u1) <? totalChunks u1) eqn:L; intros H;
      inversion H; subst; clear H;
      (split; [repeat split; cbn [retries totalChunks postParams
                 chunkSizeBytes fileSize endpoint file set_chunkCount
                 set_headers]; congruence|]);
      (split; [|rewrite PA; cbn [posts flat_map app];
                apply Forall_cons; [|apply Forall_nil];
                unfold req_chunk_number; cbn [req_headers headers set_headers];
                rewrite get_set_header; congruence]);
      (eapply StepAccepted with (status := status);
       [ rewrite PA; reflexivity | assumption | now apply TA | reflexivity
       | cbn [chunkCount set_chunkCount set_headers]; congruence
       | cbn [retriesCount set_chunkCount set_headers]; congruence
       | rewrite <- C1, <- S7, L; reflexivity
       | rewrite EA; reflexivity ]).
  - destruct (existsb (Nat.eqb status) [408; 502; 503; 504]) eqn:B.
    + assert (retryable_status status) by now apply TR.
      failed_step H EA PA LT'.
    + inversion H; subst; clear H.
      split; [repeat split; cbn [retries totalChunks postParams
                 chunkSizeBytes fileSize endpoint file set_chunkCount
                 set_headers]; congruence|].
      split; [|rewrite PA; cbn [posts flat_map app];
               apply Forall_cons; [|apply Forall_nil];
               unfold req_chunk_number; cbn [req_headers headers set_headers];
                rewrite get_set_header; congruence].
      eapply StepRefused with (status := status);
        [ rewrite PA; reflexivity | assumption
        | intros Hs; apply TA in Hs; congruence
        | intros Hs; apply TR in Hs; congruence
        | reflexivity
        | cbn [chunkCount set_headers]; congruence
        | cbn [retriesCount set_headers]; congruence | reflexivity
        | rewrite EA; reflexivity ].
Qed.

(** ** Runs *)

Lemma run_S (fuel : nat) (disk : bytes) (net : transport) (u : uploader)
  u1 net1 acts again :
  sendChunks disk net u = (u1, net1, acts, again) ->
  run (S fuel) disk net u =
    if again
    then (acts ++ run_actions (run fuel disk net1 u1),
          run_state (run fuel disk net1 u1),
          run_done (run fuel disk net1 u1))
    else (acts, u1, true).
Proof.
  intros H. simpl. rewrite H. destruct again; [|reflexivity].
  now destruct (run fuel disk net1 u1) as [[rest u2] done].
Qed.

(** An invocation that starts another one has used up one unit of the
    budget. *)
Lemma budget_decreases (disk : bytes) (net : transport) (u : uploader)
  u1 net1 acts :
  sendChunks disk net u = (u1, net1, acts, true) ->
  S (budget u1) = budget u.
Proof.
  intros H. apply step_shape_sound in H.
  destruct H as ((_ & _ & _ & _ & R & _ & T) & Sh & _).
  unfold budget. rewrite R, T.
  destruct Sh as [req st _ _ _ _ C Rc A _ | req st _ _ _ _ _ _ _ A _
                 | _ C Rc A _].
  - symmetry in A. apply Nat.ltb_lt in A. lia.
  - discriminate.
  - symmetry in A. apply Nat.ltb_lt in A. lia.
Qed.

(** The chain of invocations always comes to an end, whatever the network
    answers. *)
Lemma run_completes (fuel : nat) :
  forall (disk : bytes) (net : transport) (u : uploader),
    budget u <= fuel -> run_done (run fuel disk net u) = true.
Proof.
  induction fuel as [|fuel IH]; intros disk net u Hb.
  - unfold budget in Hb. lia.
  - destruct (sendChunks disk net u) as [[[u1 net1] acts] again] eqn:E.
    rewrite (run_S _ _ _ _ _ _ _ _ E).
    destruct again; [|reflexivity].
    unfold run_done at 1. simpl. apply IH.
    apply budget_decreases in E. lia.
Qed.

(** More fuel than needed changes nothing. *)
Lemma run_fuel_irrelevant (fuel : nat) :
  forall (disk : bytes) (net : transport) (u : uploader) (extra : nat),
    run_done (run fuel disk net u) = true ->
    run (fuel + extra) disk net u = run fuel disk net u.
Proof.
  induction fuel as [|fuel IH]; intros disk net u extra Hd.
  - discriminate.
  - destruct (sendChunks disk net u) as [[[u1 net1] acts] again] eqn:E.
    change (S fuel + extra) with (S (fuel + extra)).
    rewrite !(run_S _ _ _ _ _ _ _ _ E).
    rewrite (run_S _ _ _ _ _ _ _ _ E) in Hd.
    destruct again; [|reflexivity].
    unfold run_done at 1 in Hd. simpl in Hd.
    now rewrite IH.
Qed.

Lemma count_retries_app (l1 l2 : list action) :
  count_retries (l1 ++ l2) = count_retries l1 + count_retries l2.
Proof.
  unfold count_retries. now rewrite events_app, filter_app, length_app.
Qed.

(** What one invocation does to the counter, and how many notices it
    emits. *)
Lemma step_retries (disk : bytes) (net : transport) (u : uploader)
  u1 net1 acts again :
  sendChunks disk net u = (u1, net1, acts, again) ->
  retries u1 = retries u /\
  retriesCount u <= retriesCount u1 <= S (retriesCount u) /\
  count_retries acts <= retriesCount u1 - retriesCount u /\
  (count_retries acts = 1 -> retriesCount u < retries u).
Proof.
  intros E. apply step_shape_sound in E.
  destruct E as ((_ & _ & _ & _ & R & _ & _) & Sh & _).
  split; [assumption|].
  destruct Sh as [req st _ _ _ _ C Rc A Ev | req st _ _ _ _ _ C Rc A Ev
                 | _ C Rc A Ev];
    unfold count_retries; rewrite Ev.
  - destruct again; simpl; repeat split; lia.
  - simpl. repeat split; lia.
  - destruct again; simpl; repeat split; try lia.
    intros _. symmetry in A. now apply Nat.ltb_lt in A.
Qed.

(** The retry notices of a run never outnumber what is left of the budget
    of the session, and the counter never goes down. *)
Lemma run_retries_bounded (fuel : nat) :
  forall (disk : bytes) (net : transport) (u : uploader),
    count_retries (run_actions (run fuel disk net u))
      <= retries u - retriesCount u /\
    retriesCount u <= retriesCount (run_state (run fuel disk net u)).
Proof.
  induction fuel as [|fuel IH]; intros disk net u.
  - unfold run_actions, run_state, count_retries. simpl. split; lia.
  - destruct (sendChunks disk net u) as [[[u1 net1] acts] again] eqn:E.
    rewrite (run_S _ _ _ _ _ _ _ _ E).
    destruct (step_retries _ _ _ _ _ _ _ E) as (R & H1 & H2 & H3).
    specialize (IH disk net1 u1). rewrite R in IH.
    destruct again; unfold run_actions, run_state in *; simpl.
    + rewrite count_retries_app. split; lia.
    + split; lia.
Qed.

Lemma run_well_ended (fuel : nat) :
  forall (disk : bytes) (net : transport) (u : uploader),
    run_done (run fuel disk net u) = true ->
    well_ended (events (run_actions (run fuel disk net u))).
Proof.
  induction fuel as [|fuel IH]; intros disk net u Hd.
  - discriminate.
  - destruct (sendChunks disk net u) as [[[u1 net1] acts] again] eqn:E.
    rewrite (run_S _ _ _ _ _ _ _ _ E) in *.
    apply step_shape_sound in E. destruct E as (_ & Sh & _).
    destruct again; unfold run_actions, run_done in *; simpl in *.
    + destruct (IH _ _ _ Hd) as (front & Q & T).
      assert (Qa : quiet (events acts)).
      { destruct Sh as [? ? _ _ _ _ _ _ _ Ev | ? ? _ _ _ _ _ _ _ A _
                       | _ _ _ _ Ev]; try discriminate;
          rewrite Ev; repeat constructor. }
      exists (events acts ++ front). split.
      * apply Forall_app. now split.
      * rewrite events_app.
        destruct T as [[d T] | [p T]]; rewrite T;
          [left; exists d | right; exists p]; now rewrite app_assoc.
    + exists []. split; [constructor|].
      destruct Sh as [? ? _ _ _ _ _ _ _ Ev | ? ? _ _ _ _ _ _ _ _ Ev
                     | _ _ _ _ Ev]; rewrite Ev;
        unfold refused, exhausted; simpl;
        [right | left | left]; eexists; reflexivity.
Qed.

Lemma status_classes_disjoint (s : nat) :
  accepted_status s -> retryable_status s -> False.
Proof.
  unfold accepted_status, retryable_status. simpl.
  intros [A | [A | [A | []]]] [B | [B | [B | [B | []]]]]; subst;
    discriminate.
Qed.

(** ** Classification of the response status *)

(** C1.  For a send attempt (an invocation that issued its POST) answered
    with a status: 200, 201 and 204 accept the chunk (the controller advances
    or finishes, the retry counter is untouched); 408, 502, 503 and 504 go
    through the retry policy (one retry consumed, a retry notice while the
    budget lasts, else the error of exhaustion); every other status emits at
    once the error that names the status, with no retry notice, nothing
    consumed and nothing started again, whatever the remaining budget. *)
Theorem status_classification (disk : bytes) (net : transport)
  (u : uploader) (status : nat) :
  let r := sendChunks disk net u in
  posts (step_actions r) <> [] ->
  net 0 = Response status ->
  (accepted_status status ->
     chunkCount (step_state r) = S (chunkCount u) /\
     retriesCount (step_state r) = retriesCount u /\
     step_again r = (S (chunkCount u) <? totalChunks u) /\
     events (step_actions r) =
       (if S (chunkCount u) <? totalChunks u then [] else [EvFinish])
         ++ [EvProgress (percentProgress (totalChunks u) (S (chunkCount u)))])
  /\
  (retryable_status status ->
     chunkCount (step_state r) = chunkCount u /\
     retriesCount (step_state r) = S (retriesCount u) /\
     step_again r = (retriesCount u <? retries u) /\
     events (step_actions r) =
       [if retriesCount u <? retries u then retry_notice u else exhausted u])
  /\
  (~ accepted_status status -> ~ retryable_status status ->
     events (step_actions r) =
       [EvError ("Server responded with " ++ JS.show status
                 ++ ". Stopping upload")] /\
     count_retries (step_actions r) = 0 /\
     step_again r = false /\
     chunkCount (step_state r) = chunkCount u /\
     retriesCount (step_state r) = retriesCount u /\
     forall fuel,
       run (S fuel) disk net u = (step_actions r, step_state r, true)).
Proof.
  intros r Hp Hn. subst r.
  destruct (sendChunks disk net u) as [[[u1 net1] acts] again] eqn:E.
  unfold step_actions, step_state, step_again in *. cbn [fst snd] in *.
  pose proof (step_shape_sound _ _ _ _ _ _ _ E) as (St & Sh & _).
  destruct St as (_ & _ & _ & _ & _ & _ & T).
  destruct Sh as [req st _ N A _ C Rc Ag Ev | req st _ N NA NR _ C Rc Ag Ev
                 | P C Rc Ag Ev].
  - rewrite Hn in N. injection N as <-.
    split; [|split].
    + intros _. rewrite Ev, Ag, C, T. repeat split; try assumption.
    + intros B. destruct (status_classes_disjoint _ A B).
    + intros NA _. contradiction.
  - rewrite Hn in N. injection N as <-.
    split; [|split]; try (intros; contradiction).
    intros _ _. unfold count_retries. rewrite Ev.
    split; [reflexivity|]. split; [reflexivity|].
    split; [assumption|]. split; [assumption|]. split; [assumption|].
    intros fuel. rewrite (run_S _ _ _ _ _ _ _ _ E), Ag. reflexivity.
  - destruct P as [[P _] | (req & _ & _ & [N | (st & N & B)])];
      [contradiction | congruence | ].
    rewrite Hn in N. injection N as <-.
    split; [|split].
    + intros A. destruct (status_classes_disjoint _ A B).
    + intros _. rewrite Ev, Ag. repeat split; assumption.
    + intros _ NR. contradiction.
Qed.

Example show_403 : JS.show 403 = "403".
Proof. reflexivity. Qed.

(** A 403 on the first chunk, with the five retries of the default budget
    untouched. *)
Lemma status_classification_witness :
  events (step_actions
            (sendChunks (Sample.content 12) (Sample.answers [403])
               (Sample.opened 12 4 5 None))) =
    [EvError "Server responded with 403. Stopping upload"].
Proof.
  apply (status_classification (Sample.content 12) (Sample.answers [403])
           (Sample.opened 12 4 5 None) 403).
  - vm_compute. discriminate.
  - reflexivity.
  - unfold accepted_status. simpl. intros [A | [A | [A | []]]]; discriminate.
  - unfold retryable_status. simpl.
    intros [A | [A | [A | [A | []]]]]; discriminate.
Defined.

(** ** The constructor *)

Lemma constructor_fields (fs : Fs.t) (uniq : nat) (p : params)
  (u : uploader) :
  constructor fs uniq p = Returned u ->
  exists e,
    fs (p_file p) = Some e /\
    file u = p_file p /\
    postParams u = p_postParams p /\
    chunkSizeBytes u =
      match p_chunkSizeBytes p with
      | Some (S n) => S n
      | _ => default_chunkSizeBytes
      end /\
    retries u = JS.or_default (p_retries p) 5 /\
    chunk u = Buffer_alloc (chunkSizeBytes u) /\
    chunkCount u = 0 /\ retriesCount u = 0 /\
    fileSize u = List.length (Fs.contents e) /\
    totalChunks u = JS.Math_ceil_div (fileSize u) (chunkSizeBytes u) /\
    fd u = FdUnset.
Proof.
  unfold constructor, validateParams, Fs.statSync.
  cbn [endpoint file headers postParams chunkSizeBytes retries chunk].
  destruct (Nat.eqb (String.length (p_endpoint p)) 0); [discriminate|].
  destruct (fs (p_file p)) as [e|]; [|discriminate].
  intros H. injection H as <-. exists e.
  cbn [file postParams chunkSizeBytes retries chunk chunkCount retriesCount
       fileSize totalChunks fd].
  repeat split.
Qed.

(** ** The retry budget *)

(** C2, as the code has it.  The retry counter goes up by one on every
    failed attempt (retryable status, network failure, or an exception while
    reading or building the request) and is never set back: an accepted
    chunk leaves it as it is.  The budget (5 unless given) therefore bounds
    the retry notices of the whole session. *)
Theorem retry_budget_is_per_session (disk : bytes) (net : transport)
  (u : uploader) :
  let r := sendChunks disk net u in
  (chunkCount (step_state r) = S (chunkCount u) /\
   retriesCount (step_state r) = retriesCount u
   \/
   (exists status, events (step_actions r) = [refused status]) /\
   chunkCount (step_state r) = chunkCount u /\
   retriesCount (step_state r) = retriesCount u
   \/
   events (step_actions r) =
     [if retriesCount u <? retries u then retry_notice u else exhausted u] /\
   chunkCount (step_state r) = chunkCount u /\
   retriesCount (step_state r) = S (retriesCount u))
  /\
  (forall fuel,
     count_retries (run_actions (run fuel disk net u))
       <= retries u - retriesCount u /\
     retriesCount u <= retriesCount (run_state (run fuel disk net u)))
  /\
  (forall fs uniq p acts,
     session fs uniq net p = Returned acts ->
     count_retries acts <= JS.or_default (p_retries p) 5).
Proof.
  intros r. subst r. split; [|split].
  - destruct (sendChunks disk net u) as [[[u1 net1] acts] again] eqn:E.
    unfold step_actions, step_state. cbn [fst snd].
    apply step_shape_sound in E. destruct E as (_ & Sh & _).
    destruct Sh as [req st _ _ _ _ C Rc _ _ | req st _ _ _ _ _ C Rc _ Ev
                   | _ C Rc Ag Ev].
    + left. now split.
    + right. left. split; [now exists st | now split].
    + right. right. rewrite Ev, Ag. now split.
  - intros fuel. apply run_retries_bounded.
  - intros fs uniq p acts. unfold session, startSending.
    destruct (constructor fs uniq p) as [u0|] eqn:C; [|discriminate].
    destruct (constructor_fields _ _ _ _ C)
      as (e & _ & _ & _ & _ & R & _ & _ & Rc & _).
    intros H. injection H as <-.
    destruct (Fs.open fs (file u0)) as [f|].
    + cbv zeta.
      pose proof (run_retries_bounded (budget (set_fd u0 f))
                    (disk_of fs (file u0)) net (set_fd u0 f)) as [B _].
      unfold run_actions in B.
      cbn [retries retriesCount set_fd] in B. rewrite R, Rc, Nat.sub_0_r in B.
      exact B.
    + unfold count_retries. simpl. lia.
Qed.

(** With a budget of one retry, a 503 on chunk 0 (retried, then accepted)
    leaves nothing for chunk 1: its first 503 ends the session.  After the
    accepted chunk the counter is 1, not 0. *)
Lemma retry_counter_is_not_reset :
  session (Sample.fs_with 8) 7 (Sample.answers [503; 200; 503])
    (Sample.settings 2 1 (Some []))
  <> Threw ENOENT /\
  option_map events
    (match session (Sample.fs_with 8) 7 (Sample.answers [503; 200; 503])
             (Sample.settings 2 1 (Some [])) with
     | Returned acts => Some acts
     | Threw _ => None
     end) =
    Some [EvFileRetry "An error occured uploading chunk 0. 0 retries left" 0 0;
          EvProgress 25;
          EvError
            "An error occured uploading chunk 1. No more retries, stopping upload"]
  /\
  ~ (forall disk net u,
       chunkCount (step_state (sendChunks disk net u)) = S (chunkCount u) ->
       retriesCount (step_state (sendChunks disk net u)) = 0).
Proof.
  split; [vm_compute; discriminate|].
  split; [vm_compute; reflexivity|].
  intros H.
  specialize (H (Sample.content 8) (Sample.answers [200])
                (run_state (run 1 (Sample.content 8) (Sample.answers [503])
                              (Sample.opened 8 2 1 (Some []))))).
  vm_compute in H. specialize (H eq_refl). discriminate H.
Qed.

(** ** Runs in which every attempt fails *)

Lemma countdown_S (n : nat) : countdown (S n) = n :: countdown n.
Proof. unfold countdown. now rewrite seq_S, rev_app_distr. Qed.

Section FailingRun.

Variable disk : bytes.

(** What holds of the network and the object all along, and of every
    request that is sent. *)
Variable Inv : transport -> uploader -> Prop.
Variable Sent : request -> Prop.

Hypothesis Inv_step :
  forall net u u1 net1 acts again,
    Inv net u ->
    sendChunks disk net u = (u1, net1, acts, again) ->
    Inv net1 u1 /\ Forall Sent (posts acts) /\
    chunkCount u1 = chunkCount u /\
    retriesCount u1 = S (retriesCount u) /\
    again = (retriesCount u <? retries u) /\
    events acts = [if again then retry_notice u else exhausted u].

(** The notices count the budget down, then comes the one error. *)
Lemma failing_run (n : nat) :
  forall (net : transport) (u : uploader) (fuel : nat),
    Inv net u ->
    retries u - retriesCount u = n ->
    n < fuel ->
    run_done (run fuel disk net u) = true /\
    events (run_actions (run fuel disk net u)) =
      map (notice (chunkCount u)) (countdown n)
        ++ [no_more_retries (chunkCount u)] /\
    Forall Sent (posts (run_actions (run fuel disk net u))).
Proof.
  induction n as [|n IH]; intros net u fuel I Hn Hf;
    (destruct fuel as [|fuel]; [lia|]);
    destruct (sendChunks disk net u) as [[[u1 net1] acts] again] eqn:E;
    rewrite (run_S _ _ _ _ _ _ _ _ E);
    destruct (Inv_step _ _ _ _ _ _ I E) as (I1 & Q & C & Rc & Ag & Ev);
    pose proof (step_shape_sound _ _ _ _ _ _ _ E)
      as ((_ & _ & _ & _ & R & _ & _) & _ & _).
  - destruct again; [symmetry in Ag; apply Nat.ltb_lt in Ag; lia|].
    unfold run_done, run_actions. cbn [fst snd].
    rewrite Ev. repeat split; assumption.
  - destruct again; [|symmetry in Ag; apply Nat.ltb_ge in Ag; lia].
    destruct (IH net1 u1 fuel I1 ltac:(lia) ltac:(lia)) as (D & Evs & Qs).
    unfold run_done, run_actions in *. cbn [fst snd].
    split; [assumption|]. split.
    + rewrite events_app, Ev, Evs, countdown_S, C. cbn [map app].
      unfold retry_notice, notice.
      replace (retries u - S (retriesCount u)) with n by lia.
      reflexivity.
    + rewrite posts_app. apply Forall_app. now split.
Qed.

End FailingRun.

(** ** Exhausting the budget *)

(** C5.  In a session that has used no retry yet and gets nothing but
    transient failures from then on, with a budget of [r] retries: exactly
    [r] retry notices are emitted (counting down the retries left), then
    exactly one error, the session is over, and every request sent bears the
    index of the failing chunk. *)
Theorem budget_exhausted_by_transient_failures (disk : bytes)
  (net : transport) (u : uploader) :
  retriesCount u = 0 ->
  (forall n, transient (net n)) ->
  let r := run (budget u) disk net u in
  run_done r = true /\
  events (run_actions r) =
    map (notice (chunkCount u)) (countdown (retries u))
      ++ [no_more_retries (chunkCount u)] /\
  count_retries (run_actions r) = retries u /\
  Forall (fun q => req_chunk_number q = Some (HNum (chunkCount u)))
    (posts (run_actions r)).
Proof.
  intros Rc T r. subst r.
  pose (Inv := fun (net' : transport) (u' : uploader) =>
                 (forall n, transient (net' n)) /\
                 chunkCount u' = chunkCount u).
  destruct (failing_run disk Inv
              (fun q => req_chunk_number q = Some (HNum (chunkCount u))))
    with (n := retries u) (net := net) (u := u) (fuel := budget u)
    as (D & Ev & Q).
  - clear. intros net u0 u1 net1 acts again [T C] E.
    apply step_shape_sound in E. destruct E as (_ & Sh & Q).
    rewrite C in Q. specialize (T 0) as T0.
    destruct Sh as [req st _ N A _ _ _ _ _ | req st _ N _ NR _ _ _ _ _
                   | P C1 Rc Ag Ev].
    + rewrite N in T0. destruct (status_classes_disjoint _ A T0).
    + rewrite N in T0. contradiction.
    + repeat split; try assumption; try congruence.
      destruct P as [[_ ->] | (req & _ & -> & _)]; [assumption|].
      intros n. apply (T (S n)).
  - split; [assumption | reflexivity].
  - lia.
  - unfold budget. lia.
  - split; [assumption|]. split; [assumption|]. split; [|assumption].
    unfold count_retries. rewrite Ev, filter_app. cbn [filter is_retry].
    rewrite length_app, Nat.add_0_r.
    unfold countdown.
    rewrite forallb_filter_id;
      [now rewrite length_map, length_rev, length_seq|].
    apply forallb_forall. intros x Hx.
    apply in_map_iff in Hx. destruct Hx as (k & <- & _). reflexivity.
Qed.

(** Budget 2 and nothing but 503: two notices, one error, chunk 0 only. *)
Lemma budget_exhausted_witness :
  events (run_actions
            (run (budget (Sample.opened 12 4 2 None)) (Sample.content 12)
               (fun _ => Response 503) (Sample.opened 12 4 2 None))) =
    [notice 0 1; notice 0 0; no_more_retries 0].
Proof.
  apply (budget_exhausted_by_transient_failures (Sample.content 12)
           (fun _ => Response 503) (Sample.opened 12 4 2 None)).
  - reflexivity.
  - intros n. simpl. unfold retryable_status. simpl. auto.
Defined.

(** ** The empty file *)

Lemma constructor_returns (fs : Fs.t) (uniq : nat) (p : params)
  (e : Fs.entry) :
  p_endpoint p <> "" ->
  fs (p_file p) = Some e ->
  exists u, constructor fs uniq p = Returned u.
Proof.
  intros He Hf. unfold constructor, validateParams, Fs.statSync.
  cbn [endpoint file].
  destruct (p_endpoint p) as [|a s]; [congruence|].
  cbn [String.length Nat.eqb]. rewrite Hf. eexists. reflexivity.
Qed.

(** Nothing can be sent from an empty file. *)
Lemma nothing_to_send (net : transport) (u : uploader) u1 net1 acts again :
  sendChunks [] net u = (u1, net1, acts, again) ->
  posts acts = [].
Proof.
  unfold sendChunks, getChunk, Fs.read.
  destruct (fd u) as [|pos|].
  - rewrite manageRetries_spec.
    intros H. injection H as <- <- <- <-.
    now destruct (retriesCount u <? retries u).
  - rewrite skipn_nil, firstn_nil. cbn [List.length Nat.eqb Fs.close fd set_fd
                                          set_chunk sendChunk].
    rewrite manageRetries_spec.
    intros H. injection H as <- <- <- <-.
    now destruct (_ <? _).
  - rewrite manageRetries_spec.
    intros H. injection H as <- <- <- <-.
    now destruct (retriesCount u <? retries u).
Qed.

(** The first read of an empty file closes the descriptor. *)
Lemma empty_file_closed (net : transport) (u : uploader) (pos : nat) :
  fd u = FdOpen pos ->
  exists rest, step_actions (sendChunks [] net u) = CloseFd :: rest.
Proof.
  intros F. unfold sendChunks, getChunk, Fs.read. rewrite F.
  rewrite skipn_nil, firstn_nil. cbn [List.length Nat.eqb Fs.close fd set_fd
                                        set_chunk sendChunk].
  rewrite manageRetries_spec. unfold step_actions. cbn [fst snd app].
  eexists. reflexivity.
Qed.

(** C10.  For a file of zero bytes: [totalChunks] is 0, the first read
    finds nothing and closes the descriptor, no request is ever sent, one
    retry notice is emitted per unit of the budget (all for chunk 0), then
    exactly one error; the finish event is never emitted. *)
Theorem empty_file_exhausts_retries (fs : Fs.t) (uniq : nat)
  (net : transport) (p : params) (e : Fs.entry) :
  p_endpoint p <> "" ->
  fs (p_file p) = Some e ->
  Fs.contents e = [] ->
  Fs.readable e = true ->
  exists u acts rest,
    constructor fs uniq p = Returned u /\ totalChunks u = 0 /\
    session fs uniq net p = Returned acts /\
    acts = CloseFd :: rest /\
    posts acts = [] /\
    events acts =
      map (notice 0) (countdown (JS.or_default (p_retries p) 5))
        ++ [no_more_retries 0] /\
    count_retries acts = JS.or_default (p_retries p) 5 /\
    ~ In EvFinish (events acts).
Proof.
  intros He Hf Hc Hr.
  destruct (constructor_returns fs uniq p e He Hf) as [u C].
  destruct (constructor_fields _ _ _ _ C)
    as (e' & Hf' & Fl & _ & Cs & R & _ & Cc & Rc & Sz & Tc & _).
  rewrite Hf in Hf'. injection Hf' as <-.
  assert (T0 : totalChunks u = 0).
  { rewrite Tc, Sz, Hc. reflexivity. }
  unfold session, startSending, Fs.open, disk_of.
  rewrite C, Fl, Hf, Hr, Hc. cbv zeta. cbn [fst].
  set (u1 := set_fd u (FdOpen 0)).
  destruct (failing_run [] (fun _ _ => True) (fun _ => False))
    with (n := retries u1) (net := net) (u := u1) (fuel := budget u1)
    as (D & Ev & Q).
  - clear. intros net u u1 net1 acts again _ E.
    pose proof (nothing_to_send _ _ _ _ _ _ E) as P.
    apply step_shape_sound in E. destruct E as (_ & Sh & _).
    destruct Sh as [req st P1 _ _ _ _ _ _ _ | req st P1 _ _ _ _ _ _ _ _
                   | _ C1 Rc Ag Ev]; try congruence.
    rewrite P. repeat split; try assumption. constructor.
  - exact I.
  - subst u1. cbn [retries retriesCount set_fd]. lia.
  - unfold budget. subst u1. cbn [retries retriesCount set_fd]. lia.
  - assert (Hu1 : chunkCount u1 = 0 /\
                  retries u1 = JS.or_default (p_retries p) 5).
    { subst u1. cbn [chunkCount retries set_fd]. now split. }
    destruct Hu1 as [Cc1 R1]. rewrite Cc1, R1 in Ev.
    assert (P : posts (run_actions (run (budget u1) [] net u1)) = []).
    { destruct (posts _); [reflexivity|]. inversion Q; contradiction. }
    destruct (empty_file_closed net u1 0 eq_refl) as [rest1 Hrest].
    assert (Hd : exists rest,
               run_actions (run (budget u1) [] net u1) = CloseFd :: rest).
    { unfold budget.
      destruct (sendChunks [] net u1) as [[[u2 net2] a2] again] eqn:E.
      rewrite (run_S _ _ _ _ _ _ _ _ E).
      unfold step_actions in Hrest. cbn [fst snd] in Hrest. subst a2.
      destruct again; unfold run_actions; cbn [fst snd app]; eauto. }
    destruct Hd as [rest Hd].
    unfold run_actions in *.
    exists u, (CloseFd :: rest), rest.
    rewrite <- Hd.
    split; [reflexivity|]. split; [assumption|]. split; [reflexivity|].
    split; [reflexivity|]. split; [assumption|]. split; [assumption|].
    split.
    + unfold count_retries. rewrite Ev, filter_app. cbn [filter is_retry].
      rewrite length_app, Nat.add_0_r. unfold countdown.
      rewrite forallb_filter_id;
        [now rewrite length_map, length_rev, length_seq|].
      apply forallb_forall. intros x Hx.
      apply in_map_iff in Hx. destruct Hx as (k & <- & _). reflexivity.
    + rewrite Ev. intros Hin. apply in_app_or in Hin.
      destruct Hin as [Hin | [Hin | []]]; [|discriminate].
      apply in_map_iff in Hin. destruct Hin as (k & Hk & _). discriminate.
Qed.

(** An empty file with a budget of two retries. *)
Lemma empty_file_witness :
  exists u acts rest,
    constructor (Sample.fs_with 0) 7 (Sample.settings 4 2 None) = Returned u /\
    totalChunks u = 0 /\
    session (Sample.fs_with 0) 7 (Sample.answers [])
      (Sample.settings 4 2 None) = Returned acts /\
    acts = CloseFd :: rest /\
    posts acts = [] /\
    events acts = map (notice 0) (countdown 2) ++ [no_more_retries 0] /\
    count_retries acts = 2 /\
    ~ In EvFinish (events acts).
Proof.
  apply (empty_file_exhausts_retries (Sample.fs_with 0) 7 (Sample.answers [])
           (Sample.settings 4 2 None)
           {| Fs.contents := Sample.content 0; Fs.readable := true |}).
  - discriminate.
  - reflexivity.
  - reflexivity.
  - reflexivity.
Defined.

(** ** An invocation on an open descriptor *)

(** The chunk handed to the sender is exactly what was read, whether it is
    the whole buffer or a slice of it. *)
Lemma buffer_after_read (got buffer : bytes) (c : nat) :
  List.length buffer = c ->
  List.length got <= c ->
  let buffer' := got ++ skipn (List.length got) buffer in
  List.length buffer' = c /\
  firstn (List.length got) buffer' = got /\
  (List.length got = c -> buffer' = got).
Proof.
  intros Hb Hg buffer'. subst buffer'. split; [|split].
  - rewrite length_app, length_skipn. lia.
  - rewrite firstn_app, Nat.sub_diag, firstn_O, firstn_all. apply app_nil_r.
  - intros E. rewrite skipn_all2 by lia. apply app_nil_r.
Qed.

Lemma sendChunks_closed (disk : bytes) (net : transport) (u : uploader) :
  (forall pos, fd u <> FdOpen pos) ->
  sendChunks disk net u =
    (set_retriesCount u (S (retriesCount u)), net,
     [Emit (if retriesCount u <? retries u
            then retry_notice u else exhausted u)],
     retriesCount u <? retries u).
Proof.
  intros F. unfold sendChunks, getChunk, Fs.read.
  destruct (fd u) as [|pos|] eqn:Fd; try (now destruct (F pos));
    rewrite manageRetries_spec; cbn [app];
    now destruct (retriesCount u <? retries u).
Qed.

Lemma sendChunks_open (disk : bytes) (net : transport) (u : uploader)
  (pos : nat) :
  fd u = FdOpen pos ->
  List.length (chunk u) = chunkSizeBytes u ->
  let c := chunkSizeBytes u in
  let got := firstn c (skipn pos disk) in
  let n := List.length got in
  let u1 := set_chunk (set_fd u (FdOpen (pos + n)))
              (got ++ skipn n (chunk u)) in
  sendChunks disk net u =
    if n =? 0 then
      let '(u2, a, again) := manageRetries (set_fd u1 FdClosed) in
      (u2, net, CloseFd :: a, again)
    else
      match (if n <? c then post_fields u else Returned []) with
      | Threw _ =>
          let '(u2, a, again) := manageRetries u1 in (u2, net, a, again)
      | Returned fields =>
          let u2 := set_headers u1
                      (set_header "uploader-chunk-number"
                         (HNum (chunkCount u)) (headers u)) in
          let req := {| req_headers := headers u2;
                        req_fields := fields;
                        req_file := got |} in
          match net 0 with
          | Response status =>
              let '(u3, a, again) := onResponse u2 status in
              (u3, next_answers net, Post req :: a, again)
          | NetworkFailure =>
              let '(u3, a, again) := manageRetries u2 in
              (u3, next_answers net, Post req :: a, again)
          end
      end.
Proof.
  intros F L c got n u1.
  assert (Hn : n <= c) by (subst n got; rewrite length_firstn; lia).
  destruct (buffer_after_read got (chunk u) c L Hn) as (_ & B1 & B2).
  fold n in B1, B2. subst u1.
  unfold sendChunks, getChunk, Fs.read. rewrite F.
  fold c. fold got. fold n.
  destruct (n =? 0) eqn:N0.
  - cbn [fd set_chunk set_fd Fs.close sendChunk].
    destruct (manageRetries _) as [[u2 a] again].
    reflexivity.
  - cbn [chunkSizeBytes chunk set_chunk set_fd]. fold c.
    destruct (n <? c) eqn:Nc.
    + rewrite B1. unfold sendChunk. cbn [lastChunk data].
      unfold post_fields.
      cbn [postParams chunkCount headers set_chunk set_fd].
      destruct (postParams u) as [fields|].
      * destruct (net 0) as [status|].
        -- destruct (onResponse _ status) as [[u3 a] again]. reflexivity.
        -- destruct (manageRetries _) as [[u3 a] again]. reflexivity.
      * destruct (manageRetries _) as [[u2 a] again]. reflexivity.
    + apply Nat.ltb_ge in Nc. rewrite B2 by lia.
      unfold sendChunk. cbn [lastChunk data].
      cbn [postParams chunkCount headers set_chunk set_fd].
      destruct (net 0) as [status|].
      * destruct (onResponse _ status) as [[u3 a] again]. reflexivity.
      * destruct (manageRetries _) as [[u3 a] again]. reflexivity.
Qed.

(** ** Sessions without post parameters *)

Ltac fields :=
  cbn [endpoint file headers postParams chunkSizeBytes retries
       delayBeforeRetry chunk chunkCount retriesCount fileSize totalChunks fd
       set_headers set_chunk set_chunkCount set_retriesCount set_fd].

Ltac fields_in H :=
  cbn [endpoint file headers postParams chunkSizeBytes retries
       delayBeforeRetry chunk chunkCount retriesCount fileSize totalChunks fd
       set_headers set_chunk set_chunkCount set_retriesCount set_fd] in H.

Lemma no_finish_in_retry (u : uploader) (b : bool) :
  ~ In EvFinish (events [Emit (if b then retry_notice u else exhausted u)]).
Proof. destruct b; simpl; intros [H | []]; discriminate. Qed.

Lemma unfinishable_step (disk : bytes) (net : transport) (u : uploader)
  u1 net1 acts again :
  unfinishable disk u ->
  sendChunks disk net u = (u1, net1, acts, again) ->
  unfinishable disk u1 /\
  ~ In EvFinish (events acts) /\
  Forall (plain_full_chunk (chunkSizeBytes u)) (posts acts).
Proof.
  intros (Pp & Cp & Lb & Tc & Md & Fd) E.
  destruct (fd u) as [|pos|] eqn:F.
  1, 3: rewrite sendChunks_closed in E by (rewrite F; discriminate);
    injection E as <- <- <- <-;
    (split; [unfold unfinishable; fields; rewrite F; repeat split; assumption|]);
    (split; [apply no_finish_in_retry | destruct (_ <? _); constructor]).
  rewrite (sendChunks_open disk net u pos F Lb) in E. cbv zeta in E.
  pose proof (length_read disk pos (chunkSizeBytes u)) as Ln.
  set (c := chunkSizeBytes u) in *.
  set (got := firstn c (skipn pos disk)) in *.
  set (n := List.length got) in *.
  assert (Lb' : List.length (got ++ skipn n (chunk u)) = c).
  { apply (buffer_after_read got (chunk u) c Lb). lia. }
  destruct (n =? 0) eqn:N0.
  { rewrite manageRetries_spec in E. injection E as <- <- <- <-.
    split; [unfold unfinishable; fields; repeat split; assumption|].
    split; [|destruct (_ <? _); constructor].
    fields. destruct (_ <? _); simpl; intros [H | []]; discriminate. }
  apply Nat.eqb_neq in N0.
  destruct (n <? c) eqn:Nc.
  { apply Nat.ltb_lt in Nc. unfold post_fields in E. rewrite Pp in E.
    rewrite manageRetries_spec in E. injection E as <- <- <- <-.
    split; [unfold unfinishable; fields; repeat split; try assumption; lia|].
    split; [|destruct (_ <? _); constructor].
    fields. destruct (_ <? _); simpl; intros [H | []]; discriminate. }
  apply Nat.ltb_ge in Nc.
  assert (Hc : n = c) by lia.
  assert (Hfull : plain_full_chunk c
            {| req_headers :=
                 headers
                   (set_headers
                      (set_chunk (set_fd u (FdOpen (pos + n)))
                         (got ++ skipn n (chunk u)))
                      (set_header "uploader-chunk-number"
                         (HNum (chunkCount u)) (headers u)));
               req_fields := [];
               req_file := got |}).
  { split; [reflexivity | exact Hc]. }
  destruct (net 0) as [status|].
  - unfold onResponse in E.
    destruct ((status =? 200) || (status =? 201) || (status =? 204)).
    + fields_in E.
      assert (Lt : (S (chunkCount u) <? totalChunks u) = true).
      { apply Nat.ltb_lt. rewrite Tc. fold c.
        destruct (Math_ceil_div_spec (List.length disk) c Cp) as [H1 _].
        assert (S (chunkCount u) * c <> List.length disk).
        { intros H. apply Md. rewrite <- H. apply Nat.Div0.mod_mul. }
        nia. }
      rewrite Lt in E. injection E as <- <- <- <-.
      split; [unfold unfinishable; fields; repeat split; try assumption; lia|].
      split; [simpl; intros [H | []]; discriminate|].
      cbn [posts flat_map app]. repeat constructor; assumption.
    + destruct (existsb (Nat.eqb status) [408; 502; 503; 504]).
      * rewrite manageRetries_spec in E. injection E as <- <- <- <-.
        split; [unfold unfinishable; fields; repeat split; try assumption;
                lia|].
        split.
        -- fields. destruct (_ <? _); simpl; intros [H | []]; discriminate.
        -- destruct (_ <? _); cbn [posts flat_map app];
             repeat constructor; assumption.
      * injection E as <- <- <- <-.
        split; [unfold unfinishable; fields; repeat split; try assumption;
                lia|].
        split; [simpl; intros [H | []]; discriminate|].
        cbn [posts flat_map app]. repeat constructor; assumption.
  - rewrite manageRetries_spec in E. injection E as <- <- <- <-.
    split; [unfold unfinishable; fields; repeat split; try assumption; lia|].
    split.
    + fields. destruct (_ <? _); simpl; intros [H | []]; discriminate.
    + destruct (_ <? _); cbn [posts flat_map app];
        repeat constructor; assumption.
Qed.

Lemma unfinishable_run (fuel : nat) :
  forall (disk : bytes) (net : transport) (u : uploader),
    unfinishable disk u ->
    ~ In EvFinish (events (run_actions (run fuel disk net u))) /\
    Forall (plain_full_chunk (chunkSizeBytes u))
      (posts (run_actions (run fuel disk net u))).
Proof.
  induction fuel as [|fuel IH]; intros disk net u I.
  - unfold run_actions. simpl. split; [tauto | constructor].
  - destruct (sendChunks disk net u) as [[[u1 net1] acts] again] eqn:E.
    rewrite (run_S _ _ _ _ _ _ _ _ E).
    destruct (unfinishable_step _ _ _ _ _ _ _ I E) as (I1 & NF & Q).
    apply step_shape_sound in E.
    destruct E as ((_ & _ & _ & Cs & _) & _ & _).
    destruct again; unfold run_actions; cbn [fst snd]; [|now split].
    destruct (IH disk net1 u1 I1) as (NF1 & Q1). rewrite Cs in Q1.
    unfold run_actions in *.
    rewrite events_app, posts_app. split.
    + intros H. apply in_app_or in H. tauto.
    + apply Forall_app. now split.
Qed.

Lemma never_refused_next (net : transport) :
  never_refused net -> never_refused (next_answers net).
Proof. intros H n. apply (H (S n)). Qed.

(** A session that is never refused and does not finish ends on the error
    of exhaustion, after as many notices as the budget had left. *)
Lemma run_exhausted_count (fuel : nat) :
  forall (disk : bytes) (net : transport) (u : uploader),
    never_refused net ->
    retriesCount u <= retries u ->
    run_done (run fuel disk net u) = true ->
    ~ In EvFinish (events (run_actions (run fuel disk net u))) ->
    count_retries (run_actions (run fuel disk net u))
      = retries u - retriesCount u /\
    exists front i,
      events (run_actions (run fuel disk net u))
        = front ++ [no_more_retries i].
Proof.
  induction fuel as [|fuel IH]; intros disk net u NR Hr Hd NF.
  - discriminate.
  - destruct (sendChunks disk net u) as [[[u1 net1] acts] again] eqn:E.
    rewrite (run_S _ _ _ _ _ _ _ _ E) in *.
    apply step_shape_sound in E.
    destruct E as ((_ & _ & _ & _ & R & _ & _) & Sh & _).
    destruct Sh as [req st _ N A Nx C Rc Ag Ev | req st _ N NA NRt _ _ _ _ _
                   | P C Rc Ag Ev].
    + destruct again; unfold run_actions, run_done in *; cbn [fst snd] in *.
      * rewrite events_app in NF.
        destruct (IH disk net1 u1) as (Cn & front & i & Evs);
          try assumption.
        { subst net1. now apply never_refused_next. }
        { lia. }
        { intros H. apply NF. apply in_or_app. now right. }
        split.
        -- rewrite count_retries_app, Cn, R, Rc.
           unfold count_retries. rewrite Ev. reflexivity.
        -- exists (events acts ++ front), i.
           now rewrite events_app, Evs, app_assoc.
      * exfalso. apply NF. rewrite Ev. now left.
    + exfalso. specialize (NR 0). rewrite N in NR. tauto.
    + assert (NR1 : never_refused net1).
      { destruct P as [[_ ->] | (req & _ & -> & _)];
          [assumption | now apply never_refused_next]. }
      destruct again; unfold run_actions, run_done in *; cbn [fst snd] in *.
      * symmetry in Ag. apply Nat.ltb_lt in Ag.
        rewrite events_app in NF.
        destruct (IH disk net1 u1) as (Cn & front & i & Evs);
          try assumption.
        { lia. }
        { intros H. apply NF. apply in_or_app. now right. }
        split.
        -- rewrite count_retries_app, Cn, R, Rc.
           unfold count_retries. rewrite Ev. cbn [filter is_retry retry_notice].
           simpl. lia.
        -- exists (events acts ++ front), i.
           now rewrite events_app, Evs, app_assoc.
      * symmetry in Ag. apply Nat.ltb_ge in Ag.
        split.
        -- unfold count_retries. rewrite Ev. simpl. lia.
        -- exists [], (chunkCount u). rewrite Ev. reflexivity.
Qed.

(** Without post parameters, the chunk that has its last-chunk flag set
    makes the sender throw before it posts anything, and the failure is
    counted as a retry. *)
Lemma last_chunk_without_params (disk : bytes) (net : transport)
  (u u1 : uploader) (a : list action) (o : chunk_out) :
  postParams u = None ->
  getChunk disk u = (u1, a, Resolved (Some o)) ->
  lastChunk o = true ->
  posts (step_actions (sendChunks disk net u)) = [] /\
  retriesCount (step_state (sendChunks disk net u)) = S (retriesCount u) /\
  events (step_actions (sendChunks disk net u)) =
    [if retriesCount u <? retries u then retry_notice u else exhausted u].
Proof.
  intros Pp G L.
  destruct (getChunk_settings _ _ _ _ _ G)
    as ((_ & _ & S3 & _ & S5 & _ & _) & C1 & R1 & _ & E1 & P1).
  unfold sendChunks. rewrite G. unfold sendChunk, post_fields.
  rewrite L, S3, Pp, manageRetries_spec.
  unfold step_actions, step_state. cbn [fst snd].
  rewrite posts_app, events_app, E1, P1.
  unfold retry_notice, exhausted. rewrite ?C1, ?R1, ?S5.
  fields.
  destruct (retriesCount u <? retries u); repeat split; try reflexivity;
    assumption.
Qed.

(** The session of a readable file: the object that the constructor
    returns, and the run that follows the opening of the file. *)
Lemma session_of_readable_file (fs : Fs.t) (uniq : nat) (net : transport)
  (p : params) (e : Fs.entry) (c : nat) :
  p_endpoint p <> "" ->
  fs (p_file p) = Some e ->
  Fs.readable e = true ->
  p_chunkSizeBytes p = Some c ->
  0 < c ->
  exists u,
    constructor fs uniq p = Returned u /\
    session fs uniq net p =
      Returned (run_actions (run (budget (set_fd u (FdOpen 0)))
                               (Fs.contents e) net (set_fd u (FdOpen 0)))) /\
    postParams u = p_postParams p /\
    chunkSizeBytes u = c /\
    List.length (chunk u) = c /\
    retries u = JS.or_default (p_retries p) 5 /\
    chunkCount u = 0 /\ retriesCount u = 0 /\
    totalChunks u = JS.Math_ceil_div (List.length (Fs.contents e)) c.
Proof.
  intros He Hf Hr Hc Cp.
  destruct (constructor_returns fs uniq p e He Hf) as [u C].
  destruct (constructor_fields _ _ _ _ C)
    as (e' & Hf' & Fl & Pp & Cs & R & Ch & Cc & Rc & Sz & Tc & _).
  rewrite Hf in Hf'. injection Hf' as <-.
  assert (Cs' : chunkSizeBytes u = c).
  { rewrite Cs, Hc. destruct c; [lia | reflexivity]. }
  exists u. split; [assumption|]. split.
  - unfold session, startSending, Fs.open, disk_of.
    rewrite C, Fl, Hf, Hr. reflexivity.
  - repeat split; try assumption.
    + rewrite Ch, Cs'. apply repeat_length.
    + now rewrite Tc, Sz, Cs'.
Qed.

(** ** Post parameters left out *)

(** C9.  When [postParams] is not given: the chunk whose last-chunk flag is
    set makes the building of the request throw before anything is posted,
    and the failure goes through the retry policy.  For a file whose size is
    not a multiple of the chunk size the session therefore never emits the
    finish event, whatever the network answers: it always comes to its end
    on an error, having posted full chunks only; and unless the server
    refuses a chunk for good, the whole retry budget is used up and the
    error is the one of exhaustion. *)
Theorem missing_postParams_never_finishes (fs : Fs.t) (uniq : nat)
  (net : transport) (p : params) (e : Fs.entry) (c : nat) :
  p_endpoint p <> "" ->
  fs (p_file p) = Some e ->
  Fs.readable e = true ->
  p_postParams p = None ->
  p_chunkSizeBytes p = Some c ->
  0 < c ->
  List.length (Fs.contents e) mod c <> 0 ->
  (forall disk net' u u1 a o,
     postParams u = None ->
     getChunk disk u = (u1, a, Resolved (Some o)) ->
     lastChunk o = true ->
     posts (step_actions (sendChunks disk net' u)) = [] /\
     retriesCount (step_state (sendChunks disk net' u))
       = S (retriesCount u) /\
     events (step_actions (sendChunks disk net' u)) =
       [if retriesCount u <? retries u
        then retry_notice u else exhausted u])
  /\
  exists acts,
    session fs uniq net p = Returned acts /\
    ~ In EvFinish (events acts) /\
    (exists front d, quiet front /\ events acts = front ++ [EvError d]) /\
    Forall (plain_full_chunk c) (posts acts) /\
    (never_refused net ->
     count_retries acts = JS.or_default (p_retries p) 5 /\
     exists front i, events acts = front ++ [no_more_retries i]).
Proof.
  intros He Hf Hr Hp Hc Cp Md.
  split; [intros; now apply last_chunk_without_params with (u1 := u1) (a := a)
                                                          (o := o)|].
  destruct (session_of_readable_file fs uniq net p e c He Hf Hr Hc Cp)
    as (u & _ & S & Pp & Cs & Lb & R & Cc & Rc & Tc).
  set (u1 := set_fd u (FdOpen 0)) in *.
  set (disk := Fs.contents e) in *.
  assert (I : unfinishable disk u1).
  { unfold unfinishable. subst u1. fields.
    rewrite Pp, Hp, Cs, Cc, Tc. repeat split; try assumption; lia. }
  pose proof (run_completes (budget u1) disk net u1 (le_n _)) as D.
  pose proof (run_well_ended _ _ _ _ D) as (front & Q & W).
  destruct (unfinishable_run (budget u1) disk net u1 I) as (NF & Pl).
  exists (run_actions (run (budget u1) disk net u1)).
  split; [assumption|]. split; [assumption|]. split; [|split].
  - destruct W as [[d W] | [pr W]]; [now exists front, d|].
    exfalso. apply NF. rewrite W. apply in_or_app. right. now left.
  - subst u1. fields_in Pl. now rewrite Cs in Pl.
  - intros NR.
    destruct (run_exhausted_count (budget u1) disk net u1 NR) as (Cn & Ex);
      try assumption.
    + subst u1. fields. lia.
    + split; [|assumption]. rewrite Cn. subst u1. fields. lia.
Qed.

(** Ten bytes in chunks of four, two retries, a server that accepts
    everything: the session still fails. *)
Lemma missing_postParams_witness :
  exists acts,
    session (Sample.fs_with 10) 7 (Sample.answers [])
      (Sample.settings 4 2 None) = Returned acts /\
    ~ In EvFinish (events acts) /\
    (exists front d, quiet front /\ events acts = front ++ [EvError d]) /\
    Forall (plain_full_chunk 4) (posts acts) /\
    (never_refused (Sample.answers []) ->
     count_retries acts = 2 /\
     exists front i, events acts = front ++ [no_more_retries i]).
Proof.
  apply (missing_postParams_never_finishes (Sample.fs_with 10) 7
           (Sample.answers []) (Sample.settings 4 2 None)
           {| Fs.contents := Sample.content 10; Fs.readable := true |} 4).
  - discriminate.
  - reflexivity.
  - reflexivity.
  - reflexivity.
  - reflexivity.
  - lia.
  - vm_compute. discriminate.
Defined.

(** ** Progress *)

Lemma percent_is_nearest_upto_231 : percent_is_nearest_upto 231 = true.
Proof. vm_compute. reflexivity. Qed.

Lemma percent_is_nearest (total count : nat) :
  0 < total <= 231 ->
  count <= total ->
  percentProgress total count = JS.num (nearest_percent total count).
Proof.
  intros Ht Hc. pose proof percent_is_nearest_upto_231 as H.
  unfold percent_is_nearest_upto in H.
  rewrite forallb_forall in H. specialize (H total).
  rewrite forallb_forall in H.
  apply FloatAxioms.Leibniz.eqb_spec. apply H.
  - apply in_seq. lia.
  - apply in_seq. lia.
Qed.

(** C7, as the code has it.  A progress event is emitted by every attempt
    whose chunk is accepted and by no other; it carries
    [Math.round((100 / totalChunks) * chunkCount)] for the count of chunks
    accepted so far, computed in binary64, which is the nearest integer
    percentage at least for every total up to 231.  The last accepted chunk
    has its progress event too, emitted right after the finish event: a
    session that came to its end shows either one error as its last event,
    or the finish event followed by exactly one progress event. *)
Theorem progress_follows_every_accepted_chunk (disk : bytes)
  (net : transport) (u : uploader) :
  let r := sendChunks disk net u in
  (accepted_attempt net (step_actions r) ->
   events (step_actions r) =
     (if S (chunkCount u) <? totalChunks u then [] else [EvFinish])
       ++ [EvProgress (percentProgress (totalChunks u) (S (chunkCount u)))])
  /\
  (~ accepted_attempt net (step_actions r) ->
   filter is_progress (events (step_actions r)) = [])
  /\
  (forall fuel,
     run_done (run fuel disk net u) = true ->
     well_ended (events (run_actions (run fuel disk net u))))
  /\
  (forall total count,
     0 < total <= 231 -> count <= total ->
     percentProgress total count = JS.num (nearest_percent total count)).
Proof.
  intros r. subst r.
  destruct (sendChunks disk net u) as [[[u1 net1] acts] again] eqn:E.
  unfold step_actions. cbn [fst snd].
  pose proof (step_shape_sound _ _ _ _ _ _ _ E) as (St & Sh & _).
  destruct St as (_ & _ & _ & _ & _ & _ & T).
  split; [|split; [|split]].
  - intros (req & st & P & N & A).
    destruct Sh as [req' st' _ _ _ _ C _ Ag Ev | req' st' _ N' NA _ _ _ _ _ _
                   | [[P' _] | (req' & _ & _ & [N' | (st' & N' & B)])] _ _ _ _].
    + now rewrite Ev, Ag, C, T.
    + rewrite N in N'. injection N' as <-. contradiction.
    + congruence.
    + congruence.
    + rewrite N in N'. injection N' as <-.
      destruct (status_classes_disjoint _ A B).
  - intros NA.
    destruct Sh as [req st P N A _ _ _ _ _ | req st _ _ _ _ _ _ _ _ Ev
                   | _ _ _ Ag Ev].
    + exfalso. apply NA. now exists req, st.
    + now rewrite Ev.
    + rewrite Ev. now destruct again.
  - intros fuel. apply run_well_ended.
  - apply percent_is_nearest.
Qed.

(** A file of one chunk: the progress event comes after the finish event.
    And with 232 chunks the 145th progress event carries 62 although
    100 * 145 / 232 = 62.5 is to be rounded to 63. *)
Lemma progress_is_emitted_after_finish :
  option_map events
    (match session (Sample.fs_with 4) 7 (Sample.answers [])
             (Sample.settings 4 5 (Some [])) with
     | Returned acts => Some acts
     | Threw _ => None
     end) = Some [EvFinish; EvProgress 100]
  /\
  nth 144
    (events
       (run_actions
          (run 232 (Sample.content 232) (Sample.answers [])
             (Sample.opened 232 1 5 (Some [])))))
    EvFinish = EvProgress 62
  /\ nearest_percent 232 145 = 63.
Proof.
  split; [vm_compute; reflexivity|].
  split; [vm_compute; reflexivity | reflexivity].
Qed.

(** ** Files that cannot be opened *)




(** ** Runs in which every chunk is accepted *)

Lemma onResponse_accepted (u : uploader) (status : nat) :
  accepted_status status ->
  onResponse u status =
    (set_chunkCount u (S (chunkCount u)),
     (if S (chunkCount u) <? totalChunks u then [] else [Emit EvFinish])
       ++ [Emit (EvProgress
                   (percentProgress (totalChunks u) (S (chunkCount u))))],
     S (chunkCount u) <? totalChunks u).
Proof.
  intros A. unfold onResponse.
  destruct (status_tests status) as [TA _]. apply TA in A. now rewrite A.
Qed.

Lemma always_accepted_next (net : transport) :
  always_accepted net -> always_accepted (next_answers net).
Proof. intros H n. apply (H (S n)). Qed.

(** With [S n] chunks to go and a server that accepts them all, the run
    posts them in order, each under its own index, the bytes of the file
    from the cursor on, in full chunks but for the last; the post
    parameters go with a last chunk that is short, and with no other. *)
Lemma accepting_run (n : nat) :
  forall (disk : bytes) (net : transport) (u : uploader) (pos : nat)
         (pp : list (string * string)) (fuel : nat),
    postParams u = Some pp ->
    0 < chunkSizeBytes u ->
    List.length (chunk u) = chunkSizeBytes u ->
    fd u = FdOpen pos ->
    always_accepted net ->
    chunkCount u + S n = totalChunks u ->
    n * chunkSizeBytes u < List.length disk - pos <= S n * chunkSizeBytes u ->
    n < fuel ->
    run_done (run fuel disk net u) = true /\
    List.length (posts (run_actions (run fuel disk net u))) = S n /\
    List.concat (map req_file (posts (run_actions (run fuel disk net u))))
      = skipn pos disk /\
    Forall (fun q => List.length (req_file q) = chunkSizeBytes u)
      (removelast (posts (run_actions (run fuel disk net u)))) /\
    map req_chunk_number (posts (run_actions (run fuel disk net u)))
      = map (fun i => Some (HNum i)) (seq (chunkCount u) (S n)) /\
    map req_fields (posts (run_actions (run fuel disk net u)))
      = repeat [] n
          ++ [if List.length disk - pos - n * chunkSizeBytes u
                 <? chunkSizeBytes u
              then pp else []] /\
    In EvFinish (events (run_actions (run fuel disk net u))).
Proof.
  induction n as [|n IH]; intros disk net u pos pp fuel Pp Cp Lb F AA Tc H Hf;
    (destruct fuel as [|fuel]; [lia|]);
    destruct (sendChunks disk net u) as [[[u1 net1] acts] again] eqn:E;
    pose proof E as E';
    rewrite (sendChunks_open disk net u pos F Lb) in E'; cbv zeta in E';
    pose proof (length_read disk pos (chunkSizeBytes u)) as Ln;
    set (c := chunkSizeBytes u) in *;
    set (got := firstn c (skipn pos disk)) in *;
    set (nr := List.length got) in *;
    destruct (AA 0) as (st & N & A);
    (assert (N0 : (nr =? 0) = false) by (apply Nat.eqb_neq; lia));
    rewrite N0, N, (onResponse_accepted _ _ A) in E'; fields_in E'.
  - assert (Lt : (S (chunkCount u) <? totalChunks u) = false)
      by (apply Nat.ltb_ge; lia).
    rewrite Lt in E'.
    assert (Hgot : got = skipn pos disk).
    { subst got. apply firstn_all2. rewrite length_skipn. lia. }
    assert (Hfields :
              (if nr <? c then post_fields u else Returned []) =
              Returned (if List.length disk - pos - 0 * c <? c
                        then pp else [])).
    { replace (List.length disk - pos - 0 * c) with nr by lia.
      unfold post_fields. rewrite Pp. now destruct (nr <? c). }
    rewrite Hfields in E'. injection E' as <- <- <- <-.
    rewrite (run_S _ _ _ _ _ _ _ _ E).
    unfold run_done, run_actions. cbn [fst snd posts flat_map app].
    cbn [List.length map List.concat removelast req_file req_fields seq repeat].
    unfold req_chunk_number. cbn [req_headers headers set_headers].
    rewrite get_set_header, app_nil_r.
    repeat split; try assumption; try reflexivity.
    + constructor.
    + simpl. now left.
  - assert (Hnr : nr = c) by lia.
    assert (Lt : (S (chunkCount u) <? totalChunks u) = true)
      by (apply Nat.ltb_lt; lia).
    assert (Nc : (nr <? c) = false) by (apply Nat.ltb_ge; lia).
    rewrite Lt, Nc in E'. injection E' as <- <- <- <-.
    rewrite (run_S _ _ _ _ _ _ _ _ E).
    unfold run_done, run_actions. cbn [fst snd].
    match type of E with
    | sendChunks _ _ _ = (?x, _, _, _) => set (u3 := x) in *
    end.
    destruct (IH disk (next_answers net) u3 (pos + nr) pp fuel)
      as (D & Ln' & Cc & Fa & Nm & Fl & Fin).
    { exact Pp. }
    { exact Cp. }
    { subst u3. fields. apply (buffer_after_read got (chunk u) c Lb). lia. }
    { reflexivity. }
    { now apply always_accepted_next. }
    { subst u3. fields. lia. }
    { subst u3. fields. fold c. lia. }
    { lia. }
    unfold run_done, run_actions in *.
    change (chunkSizeBytes u3) with c in *.
    change (chunkCount u3) with (S (chunkCount u)) in *.
    rewrite events_app, posts_app. cbn [posts flat_map app].
    cbn [List.length map List.concat req_file req_fields].
    split; [assumption|]. split; [now rewrite Ln'|]. split; [|split].
    + rewrite Cc. subst got. rewrite Hnr.
      rewrite <- (firstn_skipn c (skipn pos disk)) at 2.
      now rewrite skipn_skipn, (Nat.add_comm c pos).
    + destruct (posts (fst (fst (run fuel disk (next_answers net) u3))))
        as [|q l]; [discriminate|].
      cbn [removelast]. constructor; [exact Hnr | exact Fa].
    + split; [|split].
      * rewrite Nm. unfold req_chunk_number at 1.
        cbn [req_headers headers set_headers]. now rewrite get_set_header.
      * rewrite Fl. cbn [repeat app].
        replace (List.length disk - (pos + nr) - n * c)
          with (List.length disk - pos - S n * c) by lia.
        reflexivity.
      * apply in_or_app. now right.
Qed.

Lemma run_nothing_to_send (fuel : nat) :
  forall (net : transport) (u : uploader),
    posts (run_actions (run fuel [] net u)) = [].
Proof.
  induction fuel as [|fuel IH]; intros net u; [reflexivity|].
  destruct (sendChunks [] net u) as [[[u1 net1] acts] again] eqn:E.
  rewrite (run_S _ _ _ _ _ _ _ _ E).
  apply nothing_to_send in E.
  destruct again; unfold run_actions; cbn [fst snd]; [|assumption].
  rewrite posts_app, E. apply IH.
Qed.

Lemma run_same_settings (fuel : nat) :
  forall (disk : bytes) (net : transport) (u : uploader),
    same_settings u (run_state (run fuel disk net u)).
Proof.
  induction fuel as [|fuel IH]; intros disk net u.
  - apply same_settings_refl.
  - destruct (sendChunks disk net u) as [[[u1 net1] acts] again] eqn:E.
    rewrite (run_S _ _ _ _ _ _ _ _ E).
    apply step_shape_sound in E. destruct E as (St & _).
    destruct again; unfold run_state; cbn [fst snd]; [|assumption].
    specialize (IH disk net1 u1). unfold run_state in IH.
    unfold same_settings in *. intuition congruence.
Qed.

(** ** What a retry sends *)

(** A failed attempt that read a full chunk leaves the cursor behind that
    chunk while the chunk index stays: the retry reads on from there. *)
Lemma retry_starts_past_the_failed_chunk (disk : bytes) (net : transport)
  (u : uploader) (pos : nat) :
  fd u = FdOpen pos ->
  List.length (chunk u) = chunkSizeBytes u ->
  0 < chunkSizeBytes u <= List.length disk - pos ->
  transient (net 0) ->
  retriesCount u < retries u ->
  let r := sendChunks disk net u in
  map req_file (posts (step_actions r))
    = [firstn (chunkSizeBytes u) (skipn pos disk)] /\
  step_again r = true /\
  chunkCount (step_state r) = chunkCount u /\
  fd (step_state r) = FdOpen (pos + chunkSizeBytes u).
Proof.
  intros F Lb Hc T Hr r. subst r.
  rewrite (sendChunks_open disk net u pos F Lb). cbv zeta.
  pose proof (length_read disk pos (chunkSizeBytes u)) as Ln.
  set (c := chunkSizeBytes u) in *.
  set (got := firstn c (skipn pos disk)) in *.
  set (nr := List.length got) in *.
  assert (Hnr : nr = c) by lia.
  assert (N0 : (nr =? 0) = false) by (apply Nat.eqb_neq; lia).
  assert (Nc : (nr <? c) = false) by (apply Nat.ltb_ge; lia).
  assert (Lt : (retriesCount u <? retries u) = true)
    by now apply Nat.ltb_lt.
  rewrite N0, Nc.
  destruct (net 0) as [status|].
  - unfold onResponse.
    destruct (status_tests status) as [TA TR].
    destruct ((status =? 200) || (status =? 201) || (status =? 204)) eqn:A.
    + exfalso. apply (status_classes_disjoint status); [now apply TA | exact T].
    + apply TR in T. rewrite T, manageRetries_spec. fields. rewrite Lt.
      unfold step_actions, step_again, step_state. cbn [fst snd].
      rewrite Hnr. repeat split.
  - rewrite manageRetries_spec. fields. rewrite Lt.
    unfold step_actions, step_again, step_state. cbn [fst snd].
    rewrite Hnr. repeat split.
Qed.

(** C3 at the run of the specification: twelve bytes in chunks of four,
    answers 503, 503, 200.  Chunk index 0 is sent three times, each time
    with other bytes: the first, then the second, then the third chunk of
    the file. *)
Theorem retry_sends_the_following_bytes :
  map (fun q => (req_chunk_number q, req_file q))
    (posts
       (Sample.actions_of
          (session (Sample.fs_with 12) 7 (Sample.answers [503; 503; 200])
             (Sample.settings 4 5 (Some [])))))
  = [(Some (HNum 0), [Byte.x01; Byte.x02; Byte.x03; Byte.x04]);
     (Some (HNum 0), [Byte.x05; Byte.x06; Byte.x07; Byte.x08]);
     (Some (HNum 0), [Byte.x09; Byte.x0a; Byte.x0b; Byte.x0c])].
Proof. vm_compute. reflexivity. Qed.

(** ** Where the post parameters go *)

(** C4 at a file of two full chunks (eight bytes in chunks of four), every
    chunk accepted: both requests, the one of index [totalChunks - 1] = 1
    included, go without the post parameters, and the session finishes.
    With ten bytes the third request carries them. *)
Theorem exact_multiple_loses_post_parameters :
  map (fun q => (req_chunk_number q, req_fields q))
    (posts
       (Sample.actions_of
          (session (Sample.fs_with 8) 7 (Sample.answers [])
             (Sample.settings 4 5 (Some [("a", "b")])))))
  = [(Some (HNum 0), []); (Some (HNum 1), [])]
  /\
  events
    (Sample.actions_of
       (session (Sample.fs_with 8) 7 (Sample.answers [])
          (Sample.settings 4 5 (Some [("a", "b")]))))
  = [EvProgress 50; EvFinish; EvProgress 100]
  /\
  map (fun q => (req_chunk_number q, req_fields q))
    (posts
       (Sample.actions_of
          (session (Sample.fs_with 10) 7 (Sample.answers [])
             (Sample.settings 4 5 (Some [("a", "b")])))))
  = [(Some (HNum 0), []); (Some (HNum 1), []); (Some (HNum 2), [("a", "b")])].
Proof. repeat split; vm_compute; reflexivity. Qed.

(** ** Instances *)

(** The run 503, 503, 200 under the default budget of five retries. *)
Lemma retry_budget_witness :
  count_retries
    (Sample.actions_of
       (session (Sample.fs_with 12) 7 (Sample.answers [503; 503; 200])
          (Sample.settings 4 5 (Some []))))
  <= 5.
Proof.
  destruct (retry_budget_is_per_session (Sample.content 12)
              (Sample.answers [503; 503; 200])
              (Sample.opened 12 4 5 (Some []))) as (_ & _ & H).
  apply (H (Sample.fs_with 12) 7 (Sample.settings 4 5 (Some []))).
  vm_compute. reflexivity.
Defined.

(** The only chunk of a file of four bytes, accepted with a 201. *)
Lemma progress_witness :
  events
    (step_actions
       (sendChunks (Sample.content 4) (Sample.answers [201])
          (Sample.opened 4 4 5 (Some []))))
  = [EvFinish; EvProgress 100].
Proof.
  destruct (progress_follows_every_accepted_chunk (Sample.content 4)
              (Sample.answers [201]) (Sample.opened 4 4 5 (Some [])))
    as (H & _).
  rewrite H.
  - vm_compute. reflexivity.
  - eexists. exists 201. split; [vm_compute; reflexivity|].
    split; [reflexivity|]. unfold accepted_status. simpl. auto.
Defined.

(** * Further properties of the code

    The properties of this part are about the definitions that take the
    chunk size as a whole number of bytes; the last part of the file is
    about the other chunk sizes. *)

(** ** Sessions in general *)

Lemma default_chunkSizeBytes_positive : 0 < default_chunkSizeBytes.
Proof.
  with_strategy transparent [default_chunkSizeBytes]
    (unfold default_chunkSizeBytes).
  lia.
Qed.

(** Whatever the settings, the session of an object that the constructor
    returned is either the error of the opening, or the run from the start
    of the file. *)
Lemma session_unfolded (fs : Fs.t) (uniq : nat) (net : transport)
  (p : params) (u : uploader) :
  constructor fs uniq p = Returned u ->
  exists e,
    fs (p_file p) = Some e /\
    fresh (Fs.contents e) u /\
    retries u = JS.or_default (p_retries p) 5 /\
    (Fs.readable e = false ->
     startSending fs net u =
       ([Emit (EvError "Failed starting to sending chunks")], u, true)) /\
    (Fs.readable e = true ->
     startSending fs net u =
       run (budget (set_fd u (FdOpen 0))) (Fs.contents e) net
         (set_fd u (FdOpen 0))) /\
    session fs uniq net p = Returned (run_actions (startSending fs net u)).
Proof.
  intros C.
  destruct (constructor_fields _ _ _ _ C)
    as (e & Hf & Fl & Pp & Cs & R & Ch & Cc & Rc & Sz & Tc & _).
  exists e. split; [assumption|].
  assert (Cp : 0 < chunkSizeBytes u).
  { rewrite Cs. destruct (p_chunkSizeBytes p) as [[|n]|];
      try apply default_chunkSizeBytes_positive. lia. }
  split; [|split; [assumption|split; [|split]]].
  - unfold fresh. rewrite Ch, Tc, Sz, R. unfold Buffer_alloc.
    rewrite repeat_length.
    repeat split; try assumption.
    destruct (p_retries p) as [[|n]|]; simpl; lia.
  - intros Hr. unfold startSending, Fs.open. now rewrite Fl, Hf, Hr.
  - intros Hr. unfold startSending, Fs.open, disk_of.
    now rewrite Fl, Hf, Hr.
  - unfold session. now rewrite C.
Qed.

Lemma filter_quiet (l : list event) :
  quiet l -> filter is_terminal l = [].
Proof.
  induction 1 as [|e l He _ IH]; [reflexivity|].
  cbn [filter]. now rewrite He.
Qed.

Lemma well_ended_one_terminal (l : list event) :
  well_ended l -> List.length (filter is_terminal l) = 1.
Proof.
  intros (front & Q & [[d ->] | [pr ->]]);
    now rewrite filter_app, (filter_quiet _ Q).
Qed.

(** X1.  Every session that the constructor returned comes to its end
    within [totalChunks + retries + 1] invocations of [_sendChunks], and
    emits exactly one terminal event (finish or error), whatever the
    settings, the file and the answers of the network. *)
Theorem session_ends_with_one_terminal_event (fs : Fs.t) (uniq : nat)
  (net : transport) (p : params) (u : uploader) :
  constructor fs uniq p = Returned u ->
  run_done (startSending fs net u) = true /\
  (exists acts,
     session fs uniq net p = Returned acts /\
     List.length (filter is_terminal (events acts)) = 1) /\
  budget (set_fd u (FdOpen 0)) = S (totalChunks u + retries u).
Proof.
  intros C.
  destruct (session_unfolded fs uniq net p u C)
    as (e & _ & (_ & _ & _ & Cc & Rc & _) & _ & Hn & Hy & S).
  assert (D : run_done (startSending fs net u) = true).
  { destruct (Fs.readable e).
    - rewrite (Hy eq_refl). apply run_completes. apply le_n.
    - now rewrite (Hn eq_refl). }
  split; [assumption|]. split.
  - exists (run_actions (startSending fs net u)). split; [assumption|].
    apply well_ended_one_terminal.
    destruct (Fs.readable e).
    + rewrite (Hy eq_refl) in *. now apply run_well_ended.
    + rewrite (Hn eq_refl). exists []. split; [constructor|].
      left. now eexists.
  - unfold budget. fields. rewrite Cc, Rc. lia.
Qed.

Lemma session_ends_witness :
  exists acts,
    session (Sample.fs_with 12) 7 (Sample.answers [503; 403])
      (Sample.settings 4 5 None) = Returned acts /\
    List.length (filter is_terminal (events acts)) = 1.
Proof.
  apply (session_ends_with_one_terminal_event (Sample.fs_with 12) 7
           (Sample.answers [503; 403]) (Sample.settings 4 5 None)
           (Sample.constructed 12 4 5 None)).
  reflexivity.
Defined.

(** ** What one invocation does to the cursor *)

Lemma step_cursor (disk : bytes) (net : transport) (u : uploader)
  u1 net1 acts again :
  List.length (chunk u) = chunkSizeBytes u ->
  sendChunks disk net u = (u1, net1, acts, again) ->
  List.length (chunk u1) = chunkSizeBytes u /\
  match fd u with
  | FdOpen pos =>
      let got := firstn (chunkSizeBytes u) (skipn pos disk) in
      (got = [] /\ fd u1 = FdClosed /\ posts acts = [] /\
       count_closes acts = 1)
      \/
      (got <> [] /\ fd u1 = FdOpen (pos + List.length got) /\
       count_closes acts = 0 /\
       (posts acts = [] /\ postParams u = None /\
        List.length got < chunkSizeBytes u
        \/
        exists q, posts acts = [q] /\ req_file q = got /\
                  well_formed_request u q))
  | _ => fd u1 = fd u /\ posts acts = [] /\ count_closes acts = 0
  end.
Proof.
  intros Lb E.
  destruct (fd u) as [|pos|] eqn:F.
  1, 3: rewrite sendChunks_closed in E by (rewrite F; discriminate);
    injection E as <- <- <- <-; fields; rewrite F;
    repeat split; try assumption; now destruct (_ <? _).
  rewrite (sendChunks_open disk net u pos F Lb) in E. cbv zeta in E.
  cbv zeta.
  set (c := chunkSizeBytes u) in *.
  set (got := firstn c (skipn pos disk)) in *.
  set (n := List.length got) in *.
  assert (Hn : n <= c) by (subst n got; rewrite length_firstn; lia).
  assert (Lb' : List.length (got ++ skipn n (chunk u)) = c).
  { now apply (buffer_after_read got (chunk u) c Lb). }
  destruct (n =? 0) eqn:N0.
  { apply Nat.eqb_eq in N0.
    rewrite manageRetries_spec in E. injection E as <- <- <- <-.
    fields. split; [assumption|]. left.
    repeat split; try (now destruct (_ <? _)).
    now apply length_zero_iff_nil. }
  apply Nat.eqb_neq in N0.
  assert (Hg : got <> []).
  { intros H. apply N0. subst n. now rewrite H. }
  destruct (n <? c) eqn:Nc.
  - apply Nat.ltb_lt in Nc. unfold post_fields in E.
    destruct (postParams u) as [pp|] eqn:Pp.
    + assert (W : forall h,
                 well_formed_request u
                   {| req_headers := h; req_fields := pp; req_file := got |}).
      { intros h. unfold well_formed_request. cbn [req_file req_fields].
        fold c. fold n. repeat split; try lia. now rewrite Pp. }
      destruct (net 0) as [status|].
      * unfold onResponse in E.
        destruct ((status =? 200) || (status =? 201) || (status =? 204)).
        -- fields_in E.
           destruct (S (chunkCount u) <? totalChunks u);
             injection E as <- <- <- <-; fields;
             (split; [assumption|]); right;
             (split; [assumption|]); (split; [reflexivity|]);
             (split; [reflexivity|]); right;
             eexists; (split; [reflexivity|]);
             (split; [reflexivity|]); apply W.
        -- destruct (existsb (Nat.eqb status) [408; 502; 503; 504]).
           ++ rewrite manageRetries_spec in E. injection E as <- <- <- <-.
              fields. split; [assumption|]. right.
              split; [assumption|]. split; [reflexivity|].
              split; [now destruct (_ <? _)|]. right.
              destruct (_ <? _); eexists; (split; [reflexivity|]);
                (split; [reflexivity|]); apply W.
           ++ injection E as <- <- <- <-. fields.
              split; [assumption|]. right.
              split; [assumption|]. split; [reflexivity|].
              split; [reflexivity|]. right.
              eexists. split; [reflexivity|]. split; [reflexivity|]. apply W.
      * rewrite manageRetries_spec in E. injection E as <- <- <- <-.
        fields. split; [assumption|]. right.
        split; [assumption|]. split; [reflexivity|].
        split; [now destruct (_ <? _)|]. right.
        destruct (_ <? _); eexists; (split; [reflexivity|]);
          (split; [reflexivity|]); apply W.
    + rewrite manageRetries_spec in E. injection E as <- <- <- <-.
      fields. split; [assumption|]. right.
      split; [assumption|]. split; [reflexivity|].
      split; [now destruct (_ <? _)|]. left.
      repeat split; try assumption. now destruct (_ <? _).
  - apply Nat.ltb_ge in Nc.
    assert (W : forall h,
               well_formed_request u
                 {| req_headers := h; req_fields := []; req_file := got |}).
    { intros h. unfold well_formed_request. cbn [req_file req_fields].
      fold c. fold n. repeat split; try lia. }
    destruct (net 0) as [status|].
    + unfold onResponse in E.
      destruct ((status =? 200) || (status =? 201) || (status =? 204)).
      * fields_in E.
        destruct (S (chunkCount u) <? totalChunks u);
          injection E as <- <- <- <-; fields;
          (split; [assumption|]); right;
          (split; [assumption|]); (split; [reflexivity|]);
          (split; [reflexivity|]); right;
          eexists; (split; [reflexivity|]);
          (split; [reflexivity|]); apply W.
      * destruct (existsb (Nat.eqb status) [408; 502; 503; 504]).
        -- rewrite manageRetries_spec in E. injection E as <- <- <- <-.
           fields. split; [assumption|]. right.
           split; [assumption|]. split; [reflexivity|].
           split; [now destruct (_ <? _)|]. right.
           destruct (_ <? _); eexists; (split; [reflexivity|]);
             (split; [reflexivity|]); apply W.
        -- injection E as <- <- <- <-. fields.
           split; [assumption|]. right.
           split; [assumption|]. split; [reflexivity|].
           split; [reflexivity|]. right.
           eexists. split; [reflexivity|]. split; [reflexivity|]. apply W.
    + rewrite manageRetries_spec in E. injection E as <- <- <- <-.
      fields. split; [assumption|]. right.
      split; [assumption|]. split; [reflexivity|].
      split; [now destruct (_ <? _)|]. right.
      destruct (_ <? _); eexists; (split; [reflexivity|]);
        (split; [reflexivity|]); apply W.
Qed.

Lemma well_formed_same (u u1 : uploader) (q : request) :
  same_settings u u1 ->
  well_formed_request u1 q -> well_formed_request u q.
Proof.
  intros (_ & _ & Pp & Cs & _). unfold well_formed_request.
  now rewrite Pp, Cs.
Qed.

Lemma firstn_plus (A : Type) (n k : nat) (l : list A) :
  firstn (n + k) l = firstn n l ++ firstn k (skipn n l).
Proof.
  revert l. induction n as [|n IH]; intros l; [reflexivity|].
  destruct l as [|a l]; [now rewrite skipn_nil, !firstn_nil|].
  cbn [Nat.add firstn skipn app]. now rewrite IH.
Qed.

(** A read returns what lies between the old and the new cursor. *)
Lemma read_is_slice (A : Type) (c : nat) (l : list A) :
  firstn c l = firstn (List.length (firstn c l)) l.
Proof.
  rewrite length_firstn.
  destruct (Nat.le_ge_cases c (List.length l)) as [H | H].
  - now rewrite Nat.min_l.
  - rewrite Nat.min_r by assumption.
    now rewrite firstn_all, firstn_all2.
Qed.

(** ** The requests of a run, whatever the answers *)

Lemma run_requests (fuel : nat) :
  forall (disk : bytes) (net : transport) (u : uploader),
    List.length (chunk u) = chunkSizeBytes u ->
    Forall (well_formed_request u) (posts (run_actions (run fuel disk net u)))
    /\
    match fd u with
    | FdOpen pos =>
        exists k,
          List.concat (map req_file (posts (run_actions (run fuel disk net u))))
          = firstn k (skipn pos disk)
    | _ => posts (run_actions (run fuel disk net u)) = []
    end
    /\
    count_closes (run_actions (run fuel disk net u))
      <= match fd u with FdOpen _ => 1 | _ => 0 end.
Proof.
  induction fuel as [|fuel IH]; intros disk net u Lb.
  - unfold run_actions, count_closes. cbn [run fst posts flat_map filter].
    split; [constructor|]. split.
    + destruct (fd u); try reflexivity. now exists 0.
    + cbn [List.length]. lia.
  - destruct (sendChunks disk net u) as [[[u1 net1] acts] again] eqn:E.
    rewrite (run_S _ _ _ _ _ _ _ _ E).
    destruct (step_cursor _ _ _ _ _ _ _ Lb E) as (Lb1 & Cu).
    pose proof (step_shape_sound _ _ _ _ _ _ _ E) as (St & _ & _).
    assert (Cs : chunkSizeBytes u1 = chunkSizeBytes u) by apply St.
    rewrite <- Cs in Lb1.
    destruct (IH disk net1 u1 Lb1) as (W1 & O1 & K1).
    assert (W1' : Forall (well_formed_request u)
                    (posts (run_actions (run fuel disk net1 u1)))).
    { eapply Forall_impl; [|exact W1]. intros q. now apply well_formed_same. }
    clear W1 IH.
    assert (Hrun :
              run_actions
                (if again
                 then (acts ++ run_actions (run fuel disk net1 u1),
                       run_state (run fuel disk net1 u1),
                       run_done (run fuel disk net1 u1))
                 else (acts, u1, true))
              = acts ++ (if again
                         then run_actions (run fuel disk net1 u1) else [])).
    { destruct again; unfold run_actions; cbn [fst snd];
        [reflexivity | now rewrite app_nil_r]. }
    rewrite Hrun. clear Hrun.
    set (rest := if again then run_actions (run fuel disk net1 u1) else []).
    assert (Wr : Forall (well_formed_request u) (posts rest)).
    { subst rest. destruct again; [assumption | constructor]. }
    assert (Kr : count_closes rest
                 <= match fd u1 with FdOpen _ => 1 | _ => 0 end).
    { subst rest. destruct again; [assumption|].
      unfold count_closes. cbn. lia. }
    assert (Or : match fd u1 with
                 | FdOpen pos =>
                     exists k, List.concat (map req_file (posts rest))
                               = firstn k (skipn pos disk)
                 | _ => posts rest = []
                 end).
    { subst rest. destruct again; [assumption|].
      destruct (fd u1); try reflexivity. now exists 0. }
    clearbody rest. clear W1' O1 K1.
    assert (Kapp : count_closes (acts ++ rest)
                   = count_closes acts + count_closes rest).
    { unfold count_closes. now rewrite filter_app, length_app. }
    rewrite posts_app, Kapp.
    destruct (fd u) as [|pos|] eqn:F.
    + destruct Cu as (F1 & P & K). rewrite F1 in Or, Kr.
      rewrite P, K. cbn [app]. split; [assumption|]. split; [assumption | lia].
    + cbv zeta in Cu.
      set (got := firstn (chunkSizeBytes u) (skipn pos disk)) in *.
      destruct Cu as [(G & F1 & P & K)
                     | (G & F1 & K & [(P & Pp & Lt) | (q & P & Q & W)])];
        rewrite F1 in Or, Kr; rewrite P, K; cbn [app].
      * rewrite Or. split; [constructor|]. split; [now exists 0 | lia].
      * assert (Hend : skipn (pos + List.length got) disk = []).
        { apply skipn_all2. subst got. rewrite length_firstn in *.
          rewrite length_skipn in *. lia. }
        destruct Or as [k Hk]. rewrite Hend, firstn_nil in Hk.
        split; [assumption|]. split; [|lia].
        exists 0. now rewrite Hk.
      * split; [now constructor|]. split; [|lia].
        destruct Or as [k Hk]. exists (List.length got + k).
        cbn [map List.concat]. rewrite Hk, Q, firstn_plus.
        subst got. rewrite <- read_is_slice.
        now rewrite skipn_skipn, (Nat.add_comm _ pos).
    + destruct Cu as (F1 & P & K). rewrite F1 in Or, Kr.
      rewrite P, K. cbn [app]. split; [assumption|]. split; [assumption | lia].
Qed.

Lemma run_S_actions (fuel : nat) (disk : bytes) (net : transport)
  (u : uploader) u1 net1 acts again :
  sendChunks disk net u = (u1, net1, acts, again) ->
  run_actions (run (S fuel) disk net u)
  = acts ++ (if again then run_actions (run fuel disk net1 u1) else []).
Proof.
  intros E. rewrite (run_S _ _ _ _ _ _ _ _ E).
  destruct again; unfold run_actions; cbn [fst snd];
    [reflexivity | now rewrite app_nil_r].
Qed.

Lemma run_indexed (fuel : nat) :
  forall (disk : bytes) (net : transport) (u : uploader),
    indexed_from (chunkCount u) (posts (run_actions (run fuel disk net u)))
    /\
    (chunkCount u < totalChunks u ->
     Forall (fun q => exists i, req_chunk_number q = Some (HNum i) /\
                                i < totalChunks u)
       (posts (run_actions (run fuel disk net u))))
    /\
    List.length (posts (run_actions (run fuel disk net u))) <= budget u.
Proof.
  induction fuel as [|fuel IH]; intros disk net u.
  - unfold run_actions. cbn [run fst posts flat_map indexed_from List.length].
    repeat split; try constructor. lia.
  - destruct (sendChunks disk net u) as [[[u1 net1] acts] again] eqn:E.
    rewrite (run_S_actions _ _ _ _ _ _ _ _ E).
    pose proof (step_shape_sound _ _ _ _ _ _ _ E) as (St & Sh & Nb).
    assert (T : totalChunks u1 = totalChunks u) by apply St.
    destruct (IH disk net1 u1) as (I1 & B1 & L1). clear IH.
    rewrite T in B1.
    set (rest := if again then run_actions (run fuel disk net1 u1) else []).
    assert (Ir : indexed_from (chunkCount u1) (posts rest)).
    { subst rest. destruct again; [assumption | exact I]. }
    assert (Lr : List.length (posts acts) + List.length (posts rest)
                 <= budget u).
    { subst rest. destruct again.
      - apply budget_decreases in E.
        assert (List.length (posts acts) <= 1).
        { destruct Sh as [? ? P | ? ? P | [[P _] | (? & P & _)]];
            rewrite P; simpl; lia. }
        lia.
      - cbn [posts flat_map List.length]. unfold budget.
        destruct Sh as [? ? P | ? ? P | [[P _] | (? & P & _)]];
          rewrite P; simpl; lia. }
    assert (Br : chunkCount u < totalChunks u ->
                 Forall (fun q => exists i,
                             req_chunk_number q = Some (HNum i) /\
                             i < totalChunks u) (posts rest)).
    { intros Lt. subst rest. destruct again; [|constructor]. apply B1.
      destruct Sh as [? ? _ _ _ _ C _ Ag _ | ? ? _ _ _ _ _ _ _ Ag _
                     | _ C _ _ _].
      - symmetry in Ag. apply Nat.ltb_lt in Ag. lia.
      - discriminate.
      - lia. }
    clearbody rest. clear I1 B1 L1.
    rewrite posts_app, length_app. split; [|split; [|assumption]].
    + destruct Sh as [req st P _ _ _ C _ _ _ | req st P _ _ _ _ C _ _ _
                     | [[P _] | (req & P & _)] C _ _ _];
        rewrite P in *; cbn [app indexed_from];
        rewrite C in Ir; try assumption;
        inversion Nb; subst; split; auto.
    + intros Lt. apply Forall_app. split; [|now apply Br].
      eapply Forall_impl; [|exact Nb].
      intros q Hq. now exists (chunkCount u).
Qed.

(** ** Once an attempt has failed *)

Lemma nonempty_read (disk : bytes) (pos c : nat) :
  firstn c (skipn pos disk) <> [] ->
  pos < List.length disk /\
  0 < List.length (firstn c (skipn pos disk)) /\
  List.length (firstn c (skipn pos disk))
  = Nat.min c (List.length disk - pos).
Proof.
  intros H. pose proof (length_read disk pos c) as L.
  destruct (firstn c (skipn pos disk)) as [|b l] eqn:G; [congruence|].
  cbn [List.length] in *. lia.
Qed.

Lemma no_post_is_failure (net : transport) (u u1 : uploader)
  (net1 : transport) (acts : list action) (again : bool) :
  step_shape net u u1 net1 acts again ->
  posts acts = [] ->
  chunkCount u1 = chunkCount u /\ ~ In EvFinish (events acts).
Proof.
  intros Sh Hnp.
  destruct Sh as [? ? P | ? ? P | _ C _ _ Ev]; try congruence.
  split; [assumption|]. rewrite Ev.
  destruct again; simpl; intros [X | []]; discriminate.
Qed.

Lemma derailed_step (disk : bytes) (net : transport) (u : uploader)
  u1 net1 acts again :
  derailed disk u ->
  sendChunks disk net u = (u1, net1, acts, again) ->
  derailed disk u1 /\ ~ In EvFinish (events acts).
Proof.
  intros (Cp & Lb & Tc & Fd) E.
  destruct (step_cursor _ _ _ _ _ _ _ Lb E) as (Lb1 & Cu).
  pose proof (step_shape_sound _ _ _ _ _ _ _ E) as (St & Sh & _).
  assert (Cs : chunkSizeBytes u1 = chunkSizeBytes u) by apply St.
  assert (T : totalChunks u1 = totalChunks u) by apply St.
  unfold derailed. rewrite Cs, T.
  destruct (Math_ceil_div_spec (List.length disk) _ Cp) as [T1 _].
  rewrite <- Tc in T1.
  destruct (fd u) as [|pos|] eqn:F.
  1, 3: destruct Cu as (F1 & P & _); rewrite F1;
    destruct (no_post_is_failure _ _ _ _ _ _ Sh P) as (_ & NF);
    repeat split; assumption.
  cbv zeta in Cu.
  destruct Cu as [(G & F1 & P & _)
                 | (G & F1 & _ & [(P & _ & _) | (q & P & Q & _)])];
    rewrite F1.
  - destruct (no_post_is_failure _ _ _ _ _ _ Sh P) as (_ & NF).
    repeat split; assumption.
  - destruct (no_post_is_failure _ _ _ _ _ _ Sh P) as (C & NF).
    destruct (nonempty_read _ _ _ G) as (Hp & _ & _).
    rewrite C. repeat split; try assumption. lia.
  - destruct (nonempty_read _ _ _ G) as (Hp & Hn & Hm).
    assert (Hpos : S (chunkCount u) * chunkSizeBytes u <= pos) by lia.
    destruct Sh as [? ? _ _ _ _ C _ Ag Ev | ? ? _ _ _ _ _ C _ _ Ev
                   | _ C _ _ Ev]; rewrite C.
    + assert (Lt : S (chunkCount u) < totalChunks u) by nia.
      apply Nat.ltb_lt in Lt. rewrite Lt in Ag. subst again.
      split; [repeat split; try assumption; lia|].
      rewrite Ev. simpl. intros [X | []]; discriminate.
    + split; [repeat split; try assumption; lia|].
      rewrite Ev. simpl. intros [X | []]; discriminate.
    + split; [repeat split; try assumption; lia|].
      rewrite Ev. destruct again; simpl; intros [X | []]; discriminate.
Qed.

Lemma derailed_run (fuel : nat) :
  forall (disk : bytes) (net : transport) (u : uploader),
    derailed disk u ->
    ~ In EvFinish (events (run_actions (run fuel disk net u))).
Proof.
  induction fuel as [|fuel IH]; intros disk net u D.
  - unfold run_actions. simpl. tauto.
  - destruct (sendChunks disk net u) as [[[u1 net1] acts] again] eqn:E.
    rewrite (run_S_actions _ _ _ _ _ _ _ _ E).
    destruct (derailed_step _ _ _ _ _ _ _ D E) as (D1 & NF).
    rewrite events_app. intros H. apply in_app_or in H.
    destruct H as [H | H]; [contradiction|].
    destruct again; [now apply (IH disk net1 u1 D1) | destruct H].
Qed.

(** What an invocation can be while the cursor is where it should: the
    chunk is accepted and the next one is due, or the last chunk is
    accepted and the session finishes, or the session can no longer
    finish. *)
Lemma on_track_step (disk : bytes) (net : transport) (u : uploader)
  u1 net1 acts again :
  on_track disk u ->
  sendChunks disk net u = (u1, net1, acts, again) ->
  (again = true /\ on_track disk u1 /\ chunkCount u1 = S (chunkCount u) /\
   S (chunkCount u) < totalChunks u /\
   ~ In EvFinish (events acts) /\
   count_retries acts = 0 /\ count_closes acts = 0 /\
   exists q, posts acts = [q] /\
             req_file q = firstn (chunkSizeBytes u)
                            (skipn (chunkCount u * chunkSizeBytes u) disk))
  \/
  (again = false /\ S (chunkCount u) = totalChunks u /\
   count_retries acts = 0 /\ count_closes acts = 0 /\
   exists q, posts acts = [q] /\
             req_file q = skipn (chunkCount u * chunkSizeBytes u) disk)
  \/
  (~ In EvFinish (events acts) /\ derailed disk u1).
Proof.
  intros (Cp & Lb & Tc & F) E.
  destruct (step_cursor _ _ _ _ _ _ _ Lb E) as (Lb1 & Cu).
  pose proof (step_shape_sound _ _ _ _ _ _ _ E) as (St & Sh & _).
  assert (Cs : chunkSizeBytes u1 = chunkSizeBytes u) by apply St.
  assert (T : totalChunks u1 = totalChunks u) by apply St.
  destruct (Math_ceil_div_spec (List.length disk) _ Cp) as [T1 T2].
  rewrite <- Tc in T1, T2.
  rewrite F in Cu. cbv zeta in Cu.
  set (c := chunkSizeBytes u) in *.
  set (pos := chunkCount u * c) in *.
  assert (Der : forall f,
             fd u1 = f ->
             match f with
             | FdOpen p => List.length disk <= p
                           \/ S (chunkCount u1) * c <= p
             | _ => True
             end ->
             derailed disk u1).
  { intros f Hf Hm. unfold derailed. rewrite Cs, T, Hf.
    repeat split; assumption. }
  destruct Cu as [(G & F1 & P & _)
                 | (G & F1 & K & [(P & _ & Lt) | (q & P & Q & _)])].
  - right. right.
    destruct (no_post_is_failure _ _ _ _ _ _ Sh P) as (_ & NF).
    split; [assumption|]. now apply (Der _ F1).
  - right. right.
    destruct (no_post_is_failure _ _ _ _ _ _ Sh P) as (C & NF).
    destruct (nonempty_read _ _ _ G) as (Hp & Hn & Hm).
    split; [assumption|]. apply (Der _ F1). lia.
  - destruct (nonempty_read _ _ _ G) as (Hp & Hn & Hm).
    destruct Sh as [? ? _ _ _ _ C _ Ag Ev | ? ? _ _ _ _ _ C _ _ Ev
                   | _ C _ _ Ev].
    + destruct again; symmetry in Ag.
      * apply Nat.ltb_lt in Ag. left.
        assert (Hfull : List.length
                          (firstn c (skipn pos disk)) = c) by nia.
        split; [reflexivity|]. split.
        { unfold on_track. rewrite Cs, T, F1, C, Hfull.
          repeat split; try assumption. fold c. f_equal. subst pos. lia. }
        split; [assumption|]. split; [assumption|]. split.
        { rewrite Ev. simpl. intros [X | []]; discriminate. }
        split; [unfold count_retries; now rewrite Ev|].
        split; [assumption|]. now exists q.
      * apply Nat.ltb_ge in Ag. right. left.
        split; [reflexivity|].
        assert (S (chunkCount u) = totalChunks u) by nia.
        split; [assumption|].
        split; [unfold count_retries; now rewrite Ev|].
        split; [assumption|]. exists q. split; [assumption|].
        rewrite Q. apply firstn_all2. rewrite length_skipn. nia.
    + right. right. split.
      * rewrite Ev. simpl. intros [X | []]; discriminate.
      * apply (Der _ F1). rewrite C. nia.
    + right. right. split.
      * rewrite Ev. destruct again; simpl; intros [X | []]; discriminate.
      * apply (Der _ F1). rewrite C. nia.
Qed.

(** A run that finishes has had every chunk accepted at the first attempt:
    no retry, no close, and the requests are the rest of the file, one per
    chunk still due. *)
Lemma on_track_run (fuel : nat) :
  forall (disk : bytes) (net : transport) (u : uploader),
    on_track disk u ->
    In EvFinish (events (run_actions (run fuel disk net u))) ->
    count_retries (run_actions (run fuel disk net u)) = 0 /\
    count_closes (run_actions (run fuel disk net u)) = 0 /\
    List.length (posts (run_actions (run fuel disk net u)))
    = totalChunks u - chunkCount u /\
    List.concat (map req_file (posts (run_actions (run fuel disk net u))))
    = skipn (chunkCount u * chunkSizeBytes u) disk.
Proof.
  induction fuel as [|fuel IH]; intros disk net u O Fin.
  - unfold run_actions in Fin. simpl in Fin. destruct Fin.
  - destruct (sendChunks disk net u) as [[[u1 net1] acts] again] eqn:E.
    rewrite (run_S_actions _ _ _ _ _ _ _ _ E) in *.
    pose proof (step_shape_sound _ _ _ _ _ _ _ E) as (St & _ & _).
    assert (Cs : chunkSizeBytes u1 = chunkSizeBytes u) by apply St.
    assert (T : totalChunks u1 = totalChunks u) by apply St.
    rewrite events_app in Fin. apply in_app_or in Fin.
    destruct (on_track_step _ _ _ _ _ _ _ O E)
      as [(-> & O1 & C & Lt & NF & R0 & K0 & q & P & Q)
         | [(-> & Tl & R0 & K0 & q & P & Q) | (NF & D)]].
    + destruct Fin as [Fin | Fin]; [contradiction|].
      destruct (IH disk net1 u1 O1 Fin) as (R1 & K1 & L1 & C1).
      rewrite count_retries_app, posts_app, length_app, R0, R1, P, L1.
      unfold count_closes in *. rewrite filter_app, length_app, K0, K1.
      rewrite T, C. cbn [app map List.concat List.length].
      rewrite C1, Q, Cs, C.
      repeat split; try lia.
      rewrite <- (firstn_skipn (chunkSizeBytes u)
                    (skipn (chunkCount u * chunkSizeBytes u) disk)) at 2.
      rewrite skipn_skipn. do 2 f_equal; lia.
    + rewrite app_nil_r, R0, K0, P. cbn [map List.concat List.length].
      rewrite app_nil_r, Q. repeat split; lia.
    + exfalso. destruct Fin as [Fin | Fin]; [contradiction|].
      destruct again; [|destruct Fin].
      now apply (derailed_run fuel disk net1 u1 D).
Qed.

(** ** Giving up *)

Lemma last_event (A : Type) (l1 l2 : list A) (a b : A) :
  l1 ++ [a] = l2 ++ [b] -> l1 = l2 /\ a = b.
Proof. apply app_inj_tail. Qed.

Lemma run_gives_up_after_budget (fuel : nat) :
  forall (disk : bytes) (net : transport) (u : uploader)
         (front : list event) (i : nat),
    retriesCount u <= retries u ->
    run_done (run fuel disk net u) = true ->
    events (run_actions (run fuel disk net u)) = front ++ [no_more_retries i] ->
    count_retries (run_actions (run fuel disk net u))
    = retries u - retriesCount u.
Proof.
  induction fuel as [|fuel IH]; intros disk net u front i Hr Hd Hev.
  - discriminate.
  - destruct (sendChunks disk net u) as [[[u1 net1] acts] again] eqn:E.
    rewrite (run_S_actions _ _ _ _ _ _ _ _ E) in *.
    rewrite (run_S _ _ _ _ _ _ _ _ E) in Hd.
    pose proof (step_shape_sound _ _ _ _ _ _ _ E) as (St & Sh & _).
    assert (R : retries u1 = retries u) by apply St.
    destruct again.
    + unfold run_done in Hd. cbn [snd] in Hd.
      destruct (run_well_ended _ _ _ _ Hd) as (f & _ & W).
      rewrite events_app in Hev.
      assert (Hrest : exists f',
                 events (run_actions (run fuel disk net1 u1))
                 = f' ++ [no_more_retries i]).
      { destruct W as [[d W] | [pr W]]; rewrite W in Hev |- *.
        - rewrite app_assoc in Hev. apply last_event in Hev.
          destruct Hev as (_ & ->). now exists f.
        - change [EvFinish; EvProgress pr]
            with ([EvFinish] ++ [EvProgress pr]) in Hev.
          rewrite !app_assoc in Hev. apply last_event in Hev.
          destruct Hev as (_ & X). discriminate X. }
      destruct Hrest as (f' & Hrest).
      rewrite count_retries_app.
      destruct Sh as [? ? _ _ _ _ _ Rc _ Ev | ? ? _ _ _ _ _ _ _ Ag _
                     | _ _ Rc Ag Ev]; try discriminate.
      * rewrite (IH disk net1 u1 f' i) by (assumption || lia).
        unfold count_retries. rewrite Ev, R, Rc. reflexivity.
      * symmetry in Ag. apply Nat.ltb_lt in Ag.
        rewrite (IH disk net1 u1 f' i) by (assumption || lia).
        unfold count_retries. rewrite Ev, R, Rc. simpl. lia.
    + rewrite app_nil_r in *.
      destruct Sh as [? ? _ _ _ _ _ _ _ Ev | ? ? _ _ _ _ _ _ _ _ Ev
                     | _ _ _ Ag Ev]; rewrite Ev in Hev.
      * change ([] ++ [EvProgress
                         (percentProgress (totalChunks u1) (chunkCount u1))])
          with [EvProgress (percentProgress (totalChunks u1) (chunkCount u1))]
          in Hev.
        change [EvFinish;
                EvProgress (percentProgress (totalChunks u1) (chunkCount u1))]
          with ([EvFinish]
                  ++ [EvProgress
                        (percentProgress (totalChunks u1) (chunkCount u1))])
          in Hev.
        cbn [app] in Hev.
        change [EvFinish;
                EvProgress (percentProgress (totalChunks u1) (chunkCount u1))]
          with ([EvFinish]
                  ++ [EvProgress
                        (percentProgress (totalChunks u1) (chunkCount u1))])
          in Hev.
        apply last_event in Hev. destruct Hev as (_ & X). discriminate X.
      * change [refused status] with ([] ++ [refused status]) in Hev.
        apply last_event in Hev. destruct Hev as (_ & X).
        unfold refused, no_more_retries in X. simpl in X. discriminate X.
      * symmetry in Ag. apply Nat.ltb_ge in Ag.
        unfold count_retries. rewrite Ev. simpl. lia.
Qed.

(** ** Headers *)







(** ** A failing network and a retryable status *)

Lemma retryable_tests (status : nat) :
  retryable_status status ->
  (status =? 200) || (status =? 201) || (status =? 204) = false /\
  existsb (Nat.eqb status) [408; 502; 503; 504] = true.
Proof.
  intros R. destruct (status_tests status) as [TA TR]. split.
  - destruct ((status =? 200) || (status =? 201) || (status =? 204));
      [|reflexivity].
    exfalso. apply (status_classes_disjoint status); [now apply TA | exact R].
  - now apply TR.
Qed.

(** ** How many requests *)

Lemma run_posts_within_file (fuel : nat) :
  forall (disk : bytes) (net : transport) (u : uploader),
    0 < chunkSizeBytes u ->
    List.length (chunk u) = chunkSizeBytes u ->
    match fd u with
    | FdOpen pos =>
        List.length (posts (run_actions (run fuel disk net u)))
          * chunkSizeBytes u
        < (List.length disk - pos) + chunkSizeBytes u
    | _ => posts (run_actions (run fuel disk net u)) = []
    end.
Proof.
  induction fuel as [|fuel IH]; intros disk net u Cp Lb.
  - unfold run_actions. cbn [run fst posts flat_map List.length].
    destruct (fd u); try reflexivity. lia.
  - destruct (sendChunks disk net u) as [[[u1 net1] acts] again] eqn:E.
    rewrite (run_S_actions _ _ _ _ _ _ _ _ E).
    destruct (step_cursor _ _ _ _ _ _ _ Lb E) as (Lb1 & Cu).
    pose proof (step_shape_sound _ _ _ _ _ _ _ E) as (St & _ & _).
    assert (Cs : chunkSizeBytes u1 = chunkSizeBytes u) by apply St.
    rewrite <- Cs in Lb1.
    pose proof (IH disk net1 u1 ltac:(lia) Lb1) as I1. clear IH.
    rewrite Cs in I1.
    set (rest := if again then run_actions (run fuel disk net1 u1) else []).
    assert (Ir : match fd u1 with
                 | FdOpen pos =>
                     List.length (posts rest) * chunkSizeBytes u
                     < (List.length disk - pos) + chunkSizeBytes u
                 | _ => posts rest = []
                 end).
    { subst rest. destruct again; [assumption|].
      destruct (fd u1); try reflexivity. cbn [posts flat_map List.length].
      lia. }
    clearbody rest. clear I1.
    rewrite posts_app.
    destruct (fd u) as [|pos|] eqn:F.
    + destruct Cu as (F1 & P & _). rewrite F1 in Ir. now rewrite P, Ir.
    + cbv zeta in Cu.
      destruct Cu as [(G & F1 & P & _)
                     | (G & F1 & _ & [(P & _ & Lt) | (q & P & _ & _)])];
        rewrite F1 in Ir; rewrite P.
      * rewrite Ir. cbn [app List.length]. lia.
      * destruct (nonempty_read _ _ _ G) as (Hp & Hn & Hm).
        cbn [app]. nia.
      * destruct (nonempty_read _ _ _ G) as (Hp & Hn & Hm).
        cbn [app List.length].
        set (c := chunkSizeBytes u) in *.
        set (n := List.length (firstn c (skipn pos disk))) in *.
        set (k := List.length (posts rest)) in *.
        destruct (Nat.le_gt_cases c (List.length disk - pos)) as [Hc | Hc].
        -- assert (n = c) by lia. cbn [Nat.mul]. lia.
        -- assert (n = List.length disk - pos) by lia.
           assert (k = 0) by nia. subst k. rewrite H0. cbn [Nat.mul]. lia.
    + destruct Cu as (F1 & P & _). rewrite F1 in Ir. now rewrite P, Ir.
Qed.

(** ** The properties, for whole sessions *)

(** X2.  Whatever the answers of the network, the chunk numbers of the
    requests of a session start at 0, each request bears the number of the
    one before it or the next number, and every number is below
    [totalChunks], the value of the [uploader-chunks-total] header. *)
Theorem chunk_numbers_climb_below_total (fs : Fs.t) (uniq : nat)
  (net : transport) (p : params) (u : uploader) (acts : list action) :
  constructor fs uniq p = Returned u ->
  session fs uniq net p = Returned acts ->
  indexed_from 0 (posts acts) /\
  Forall (fun q => exists i, req_chunk_number q = Some (HNum i) /\
                             i < totalChunks u)
    (posts acts).
Proof.
  intros C S.
  destruct (session_unfolded fs uniq net p u C)
    as (e & _ & (Cp & Lb & Tc & Cc & Rc & _) & _ & Hn & Hy & S').
  rewrite S' in S. injection S as <-.
  destruct (Fs.readable e).
  - rewrite (Hy eq_refl).
    set (u1 := set_fd u (FdOpen 0)).
    destruct (run_indexed (budget u1) (Fs.contents e) net u1)
      as (I & B & _).
    change (chunkCount u1) with (chunkCount u) in *.
    change (totalChunks u1) with (totalChunks u) in *.
    rewrite Cc in I. split; [assumption|].
    destruct (totalChunks u) as [|n] eqn:Tn.
    + assert (Hd : Fs.contents e = []).
      { destruct (Math_ceil_div_spec (List.length (Fs.contents e)) _ Cp)
          as [T1 _].
        rewrite <- Tc in T1. destruct (Fs.contents e); [reflexivity|].
        simpl in T1. lia. }
      rewrite Hd, run_nothing_to_send. constructor.
    + apply B. lia.
  - rewrite (Hn eq_refl). unfold run_actions. cbn [fst posts flat_map app].
    split; constructor.
Qed.

Lemma chunk_numbers_witness :
  indexed_from 0
    (posts
       (Sample.actions_of
          (session (Sample.fs_with 12) 7 (Sample.answers [503; 200; 408])
             (Sample.settings 4 5 None)))).
Proof.
  apply (chunk_numbers_climb_below_total (Sample.fs_with 12) 7
           (Sample.answers [503; 200; 408]) (Sample.settings 4 5 None)
           (Sample.constructed 12 4 5 None)).
  - reflexivity.
  - vm_compute. reflexivity.
Defined.

(** X3.  Whatever the answers of the network, retries included, a session
    sends at most [totalChunks] requests. *)
Theorem never_more_requests_than_chunks (fs : Fs.t) (uniq : nat)
  (net : transport) (p : params) (u : uploader) (acts : list action) :
  constructor fs uniq p = Returned u ->
  session fs uniq net p = Returned acts ->
  List.length (posts acts) <= totalChunks u.
Proof.
  intros C S.
  destruct (session_unfolded fs uniq net p u C)
    as (e & _ & (Cp & Lb & Tc & _) & _ & Hn & Hy & S').
  rewrite S' in S. injection S as <-.
  destruct (Fs.readable e).
  - rewrite (Hy eq_refl).
    pose proof (run_posts_within_file (budget (set_fd u (FdOpen 0)))
                  (Fs.contents e) net (set_fd u (FdOpen 0)) Cp Lb) as B.
    cbn [fd set_fd chunkSizeBytes] in B.
    destruct (Math_ceil_div_spec (List.length (Fs.contents e)) _ Cp)
      as [T1 _].
    rewrite <- Tc in T1. nia.
  - rewrite (Hn eq_refl). unfold run_actions. cbn. lia.
Qed.

Lemma never_more_requests_witness :
  List.length
    (posts
       (Sample.actions_of
          (session (Sample.fs_with 12) 7 (Sample.answers [503; 200; 408])
             (Sample.settings 4 5 None))))
  <= 3.
Proof.
  apply (never_more_requests_than_chunks (Sample.fs_with 12) 7
           (Sample.answers [503; 200; 408]) (Sample.settings 4 5 None)
           (Sample.constructed 12 4 5 None)).
  - reflexivity.
  - vm_compute. reflexivity.
Defined.

(** X4.  Whatever the answers of the network, every request of a session
    carries a part of one byte at least and [chunkSizeBytes] at most; a
    request with a full part has no post field, and a request with a
    shorter part carries exactly the post parameters (which must have been
    given).  No request is sent for an empty read. *)
Theorem requests_are_well_formed (fs : Fs.t) (uniq : nat)
  (net : transport) (p : params) (u : uploader) (acts : list action) :
  constructor fs uniq p = Returned u ->
  session fs uniq net p = Returned acts ->
  Forall (well_formed_request u) (posts acts).
Proof.
  intros C S.
  destruct (session_unfolded fs uniq net p u C)
    as (e & _ & (Cp & Lb & _) & _ & Hn & Hy & S').
  rewrite S' in S. injection S as <-.
  destruct (Fs.readable e).
  - rewrite (Hy eq_refl).
    destruct (run_requests (budget (set_fd u (FdOpen 0))) (Fs.contents e)
                net (set_fd u (FdOpen 0)) Lb) as (W & _).
    eapply Forall_impl; [|exact W].
    intros q Hq. exact Hq.
  - rewrite (Hn eq_refl). constructor.
Qed.

Lemma requests_are_well_formed_witness :
  Forall (well_formed_request (Sample.constructed 10 4 5 (Some [("a", "b")])))
    (posts
       (Sample.actions_of
          (session (Sample.fs_with 10) 7 (Sample.answers [503])
             (Sample.settings 4 5 (Some [("a", "b")]))))).
Proof.
  apply (requests_are_well_formed (Sample.fs_with 10) 7
           (Sample.answers [503]) (Sample.settings 4 5 (Some [("a", "b")]))).
  - reflexivity.
  - vm_compute. reflexivity.
Defined.

(** X5.  Whatever the answers of the network, the parts of the requests
    of a session, put end to end in the order of sending, are an initial
    segment of the file: bytes go out in file order, none twice, none
    skipped, so that a request that repeats a chunk number carries the
    bytes that follow those of the request before it. *)
Theorem bytes_go_out_in_file_order (fs : Fs.t) (uniq : nat)
  (net : transport) (p : params) (e : Fs.entry) (acts : list action) :
  fs (p_file p) = Some e ->
  session fs uniq net p = Returned acts ->
  exists k,
    List.concat (map req_file (posts acts)) = firstn k (Fs.contents e).
Proof.
  intros Hf S.
  unfold session in S.
  destruct (constructor fs uniq p) as [u|] eqn:C; [|discriminate].
  injection S as <-.
  destruct (session_unfolded fs uniq net p u C)
    as (e' & Hf' & (Cp & Lb & _) & _ & Hn & Hy & _).
  rewrite Hf in Hf'. injection Hf' as <-.
  destruct (Fs.readable e).
  - change (fst (fst (startSending fs net u)))
      with (run_actions (startSending fs net u)).
    rewrite (Hy eq_refl).
    destruct (run_requests (budget (set_fd u (FdOpen 0))) (Fs.contents e)
                net (set_fd u (FdOpen 0)) Lb) as (_ & O & _).
    exact O.
  - change (fst (fst (startSending fs net u)))
      with (run_actions (startSending fs net u)).
    rewrite (Hn eq_refl). now exists 0.
Qed.

Lemma bytes_go_out_witness :
  exists k,
    List.concat
      (map req_file
         (posts
            (Sample.actions_of
               (session (Sample.fs_with 12) 7 (Sample.answers [503; 200])
                  (Sample.settings 4 5 None)))))
    = firstn k (Sample.content 12).
Proof.
  apply (bytes_go_out_in_file_order (Sample.fs_with 12) 7
           (Sample.answers [503; 200]) (Sample.settings 4 5 None)
           {| Fs.contents := Sample.content 12; Fs.readable := true |}).
  - reflexivity.
  - vm_compute. reflexivity.
Defined.



(** X7.  The descriptor is closed at most once in a session, and never in
    a session that emits the finish event: a successful upload leaves the
    descriptor open. *)
Theorem descriptor_closed_at_most_once (fs : Fs.t) (uniq : nat)
  (net : transport) (p : params) (u : uploader) (acts : list action) :
  constructor fs uniq p = Returned u ->
  session fs uniq net p = Returned acts ->
  count_closes acts <= 1 /\
  (In EvFinish (events acts) -> count_closes acts = 0).
Proof.
  intros C S.
  destruct (session_unfolded fs uniq net p u C)
    as (e & Hf & (Cp & Lb & Tc & Cc & _) & _ & Hn & Hy & S').
  rewrite S' in S. injection S as <-.
  destruct (Fs.readable e).
  - rewrite (Hy eq_refl) in *.
    set (u1 := set_fd u (FdOpen 0)) in *.
    destruct (run_requests (budget u1) (Fs.contents e) net u1 Lb)
      as (_ & _ & K).
    split; [exact K|].
    intros Fin.
    assert (O : on_track (Fs.contents e) u1).
    { unfold on_track. subst u1. fields. rewrite Cc.
      repeat split; assumption. }
    now destruct (on_track_run _ _ _ _ O Fin) as (_ & K0 & _).
  - rewrite (Hn eq_refl). unfold run_actions, count_closes. cbn.
    split; [lia | reflexivity].
Qed.

Lemma descriptor_closed_witness :
  count_closes
    (Sample.actions_of
       (session (Sample.fs_with 12) 7 (Sample.answers [503; 200])
          (Sample.settings 4 2 None)))
  <= 1.
Proof.
  apply (descriptor_closed_at_most_once (Sample.fs_with 12) 7
           (Sample.answers [503; 200]) (Sample.settings 4 2 None)
           (Sample.constructed 12 4 2 None)).
  - reflexivity.
  - vm_compute. reflexivity.
Defined.

(** X8.  Whatever the answers of the network, a session that ends on the
    error "No more retries" has emitted exactly [retries] retry notices
    before it, [retries] being the setting or 5, and never 0; the notices of
    all chunks count together. *)
Theorem gives_up_only_after_the_whole_budget (fs : Fs.t) (uniq : nat)
  (net : transport) (p : params) (u : uploader) (acts : list action)
  (front : list event) (i : nat) :
  constructor fs uniq p = Returned u ->
  session fs uniq net p = Returned acts ->
  events acts = front ++ [no_more_retries i] ->
  count_retries acts = retries u /\
  retries u = JS.or_default (p_retries p) 5 /\
  0 < retries u.
Proof.
  intros C S Ev.
  destruct (session_unfolded fs uniq net p u C)
    as (e & _ & (_ & _ & _ & _ & Rc & Rp) & R & Hn & Hy & S').
  rewrite S' in S. injection S as <-.
  split; [|now split].
  destruct (Fs.readable e).
  - rewrite (Hy eq_refl) in *.
    set (u1 := set_fd u (FdOpen 0)) in *.
    rewrite (run_gives_up_after_budget (budget u1) (Fs.contents e) net u1
               front i).
    + subst u1. fields. lia.
    + subst u1. fields. lia.
    + apply run_completes. apply le_n.
    + exact Ev.
  - rewrite (Hn eq_refl) in Ev. unfold run_actions in Ev.
    cbn [fst events flat_map app] in Ev.
    change [EvError "Failed starting to sending chunks"]
      with ([] ++ [EvError "Failed starting to sending chunks"]) in Ev.
    apply last_event in Ev. destruct Ev as (_ & X).
    unfold no_more_retries in X. simpl in X. discriminate X.
Qed.

Lemma gives_up_witness :
  count_retries
    (Sample.actions_of
       (session (Sample.fs_with 12) 7 (Sample.answers [503; 200; 408])
          (Sample.settings 4 2 None)))
  = 2.
Proof.
  apply (gives_up_only_after_the_whole_budget (Sample.fs_with 12) 7
           (Sample.answers [503; 200; 408]) (Sample.settings 4 2 None)
           (Sample.constructed 12 4 2 None)
           (Sample.actions_of
              (session (Sample.fs_with 12) 7 (Sample.answers [503; 200; 408])
                 (Sample.settings 4 2 None)))
           [notice 0 1; EvProgress 33; notice 1 0] 1).
  - reflexivity.
  - vm_compute. reflexivity.
  - vm_compute. reflexivity.
Defined.




Lemma transient_next (net : transport) :
  (forall n, transient (net n)) -> forall n, transient (next_answers net n).
Proof. intros H n. apply (H (S n)). Qed.

(** An invocation that meets a transient answer, if any, goes through the
    retry policy. *)
Lemma transient_step (disk : bytes) (net : transport) (u : uploader)
  u1 net1 acts again :
  (forall n, transient (net n)) ->
  sendChunks disk net u = (u1, net1, acts, again) ->
  (forall n, transient (net1 n)) /\
  chunkCount u1 = chunkCount u /\
  retriesCount u1 = S (retriesCount u) /\
  again = (retriesCount u <? retries u) /\
  events acts = [if again then retry_notice u else exhausted u].
Proof.
  intros T E. apply step_shape_sound in E. destruct E as (_ & Sh & _).
  specialize (T 0) as T0.
  destruct Sh as [req st _ N A _ _ _ _ _ | req st _ N _ NR _ _ _ _ _
                 | P C Rc Ag Ev].
  - rewrite N in T0. destruct (status_classes_disjoint _ A T0).
  - rewrite N in T0. contradiction.
  - repeat split; try assumption.
    destruct P as [[_ ->] | (req & _ & -> & _)];
      [assumption | now apply transient_next].
Qed.

(** X10.  A [retries] setting of 0 does not switch retrying off: like a
    setting left out it gives the budget of 5, so that a session which meets
    transient failures only emits five retry notices before its error. *)
Theorem zero_retries_means_five (fs : Fs.t) (uniq : nat) (net : transport)
  (p : params) (e : Fs.entry) (acts : list action) :
  p_retries p = Some 0 \/ p_retries p = None ->
  fs (p_file p) = Some e ->
  Fs.readable e = true ->
  (forall n, transient (net n)) ->
  session fs uniq net p = Returned acts ->
  events acts = map (notice 0) (countdown 5) ++ [no_more_retries 0] /\
  count_retries acts = 5.
Proof.
  intros Hp Hf Hr T S.
  unfold session in S.
  destruct (constructor fs uniq p) as [u|] eqn:C; [|discriminate].
  injection S as <-.
  destruct (session_unfolded fs uniq net p u C)
    as (e' & Hf' & (_ & _ & _ & Cc & Rc & _) & R & _ & Hy & _).
  rewrite Hf in Hf'. injection Hf' as <-.
  assert (R5 : retries u = 5).
  { rewrite R. now destruct Hp as [-> | ->]. }
  change (fst (fst (startSending fs net u)))
    with (run_actions (startSending fs net u)).
  rewrite (Hy Hr).
  set (u1 := set_fd u (FdOpen 0)).
  destruct (failing_run (Fs.contents e)
              (fun net' _ => forall n, transient (net' n))
              (fun _ => True))
    with (n := 5) (net := net) (u := u1) (fuel := budget u1)
    as (_ & Ev & _).
  - clear. intros net u u1 net1 acts again T E.
    destruct (transient_step _ _ _ _ _ _ _ T E) as (T1 & C & Rc & Ag & Ev).
    repeat split; try assumption.
    apply Forall_forall. intros; exact I.
  - exact T.
  - subst u1. fields. lia.
  - unfold budget. subst u1. fields. lia.
  - change (chunkCount u1) with (chunkCount u) in Ev. rewrite Cc in Ev.
    split; [exact Ev|].
    unfold count_retries. rewrite Ev. reflexivity.
Qed.

Lemma zero_retries_witness :
  count_retries
    (Sample.actions_of
       (session (Sample.fs_with 12) 7 (fun _ => Response 503)
          (Sample.settings 4 0 None)))
  = 5.
Proof.
  apply (zero_retries_means_five (Sample.fs_with 12) 7
           (fun _ => Response 503) (Sample.settings 4 0 None)
           {| Fs.contents := Sample.content 12; Fs.readable := true |}).
  - now left.
  - reflexivity.
  - reflexivity.
  - intros n. simpl. unfold retryable_status. simpl. auto.
  - vm_compute. reflexivity.
Defined.

(** X11.  When every chunk of a file that is not empty is accepted and
    post parameters were given: the requests bear the chunk numbers
    [0 .. totalChunks - 1] in order, the finish event is emitted, and the
    post parameters go with the last request if the size of the file is not
    a multiple of the chunk size, and with no request at all if it is. *)
Theorem post_parameters_need_a_short_last_chunk (fs : Fs.t) (uniq : nat)
  (net : transport) (p : params) (e : Fs.entry) (c : nat)
  (pp : list (string * string)) :
  p_endpoint p <> "" ->
  fs (p_file p) = Some e ->
  Fs.readable e = true ->
  p_postParams p = Some pp ->
  p_chunkSizeBytes p = Some c ->
  0 < c ->
  0 < List.length (Fs.contents e) ->
  always_accepted net ->
  exists u acts,
    constructor fs uniq p = Returned u /\
    session fs uniq net p = Returned acts /\
    In EvFinish (events acts) /\
    map req_chunk_number (posts acts)
    = map (fun i => Some (HNum i)) (seq 0 (totalChunks u)) /\
    map req_fields (posts acts)
    = repeat [] (totalChunks u - 1)
        ++ [if List.length (Fs.contents e) mod c =? 0 then [] else pp].
Proof.
  intros He Hf Hr Hp Hc Cp Hs AA.
  destruct (session_of_readable_file fs uniq net p e c He Hf Hr Hc Cp)
    as (u & C & HS & Pp & Cs & Lb & R & Cc & Rc & Tc).
  set (disk := Fs.contents e) in *.
  set (u1 := set_fd u (FdOpen 0)) in *.
  destruct (Math_ceil_div_spec (List.length disk) c Cp) as [T1 T2].
  rewrite <- Tc in T1, T2.
  destruct (totalChunks u) as [|n] eqn:Tn; [lia|].
  destruct (accepting_run n disk net u1 0 pp (budget u1))
    as (_ & _ & _ & _ & Nm & Fl & Fin).
  - subst u1. fields. now rewrite Pp.
  - subst u1. fields. lia.
  - subst u1. fields. lia.
  - reflexivity.
  - assumption.
  - subst u1. fields. lia.
  - subst u1. fields. rewrite Cs. lia.
  - unfold budget. subst u1. fields. lia.
  - exists u, (run_actions (run (budget u1) disk net u1)).
    split; [assumption|]. split; [assumption|]. split; [assumption|].
    change (chunkCount u1) with (chunkCount u) in Nm. rewrite Cc in Nm.
    rewrite Tn. split; [assumption|].
    rewrite Fl. change (chunkSizeBytes u1) with (chunkSizeBytes u).
    rewrite Cs. replace (S n - 1) with n by lia.
    rewrite Nat.sub_0_r. f_equal. f_equal.
    destruct (List.length disk mod c =? 0) eqn:M.
    + apply Nat.eqb_eq in M.
      pose proof (Nat.Div0.div_mod (List.length disk) c) as D.
      rewrite M in D.
      assert (List.length disk / c = S n) by nia.
      assert (X : (List.length disk - n * c <? c) = false)
        by (apply Nat.ltb_ge; nia).
      now rewrite X.
    + apply Nat.eqb_neq in M.
      assert (List.length disk <> S n * c).
      { intros X. apply M. rewrite X. apply Nat.Div0.mod_mul. }
      assert (X : (List.length disk - n * c <? c) = true)
        by (apply Nat.ltb_lt; nia).
      now rewrite X.
Qed.

Lemma post_parameters_witness :
  exists u acts,
    constructor (Sample.fs_with 8) 7 (Sample.settings 4 5 (Some [("a", "b")]))
    = Returned u /\
    session (Sample.fs_with 8) 7 (Sample.answers [])
      (Sample.settings 4 5 (Some [("a", "b")])) = Returned acts /\
    In EvFinish (events acts) /\
    map req_chunk_number (posts acts)
    = map (fun i => Some (HNum i)) (seq 0 (totalChunks u)) /\
    map req_fields (posts acts)
    = repeat [] (totalChunks u - 1)
        ++ [if List.length (Sample.content 8) mod 4 =? 0
            then [] else [("a", "b")]].
Proof.
  apply (post_parameters_need_a_short_last_chunk (Sample.fs_with 8) 7
           (Sample.answers []) (Sample.settings 4 5 (Some [("a", "b")]))
           {| Fs.contents := Sample.content 8; Fs.readable := true |}
           4 [("a", "b")]).
  - discriminate.
  - reflexivity.
  - reflexivity.
  - reflexivity.
  - reflexivity.
  - lia.
  - simpl. lia.
  - intros n. exists 200. split.
    + unfold Sample.answers. now destruct n as [|[|n]].
    + unfold accepted_status. simpl. auto.
Defined.

(** X12.  A request that the transport rejects (connection failure or
    timeout) is handled exactly like one answered with 408, 502, 503 or
    504: the invocation leaves the same object, performs the same actions
    and takes the same decision about a retry. *)
Theorem network_failure_is_handled_as_retryable (disk : bytes)
  (net net' : transport) (u : uploader) (status : nat) :
  net 0 = NetworkFailure ->
  net' 0 = Response status ->
  retryable_status status ->
  step_state (sendChunks disk net u) = step_state (sendChunks disk net' u) /\
  step_actions (sendChunks disk net u)
  = step_actions (sendChunks disk net' u) /\
  step_again (sendChunks disk net u) = step_again (sendChunks disk net' u).
Proof.
  intros N N' R. destruct (retryable_tests _ R) as (TA & TR).
  unfold sendChunks.
  destruct (getChunk disk u) as [[u0 a0] [[o|] | er]].
  - unfold sendChunk.
    destruct (if lastChunk o then post_fields u0 else Returned [])
      as [fields | er].
    + cbv zeta. rewrite N, N'. unfold onResponse. rewrite TA, TR.
      destruct (manageRetries _) as [[u3 a3] g]. now repeat split.
    + destruct (manageRetries u0) as [[u3 a3] g]. now repeat split.
  - unfold sendChunk.
    destruct (manageRetries u0) as [[u3 a3] g]. now repeat split.
  - destruct (manageRetries u0) as [[u3 a3] g]. now repeat split.
Qed.

Lemma network_failure_witness :
  step_actions
    (sendChunks (Sample.content 12) (fun _ => NetworkFailure)
       (Sample.opened 12 4 5 None))
  = step_actions
      (sendChunks (Sample.content 12) (Sample.answers [504])
         (Sample.opened 12 4 5 None)).
Proof.
  apply (network_failure_is_handled_as_retryable (Sample.content 12)
           (fun _ => NetworkFailure) (Sample.answers [504])
           (Sample.opened 12 4 5 None) 504).
  - reflexivity.
  - reflexivity.
  - unfold retryable_status. simpl. auto.
Defined.

(** ** Counting the events *)

Lemma run_progress (fuel : nat) :
  forall (disk : bytes) (net : transport) (u : uploader),
    chunkCount (run_state (run fuel disk net u))
    = chunkCount u + count_progress (run_actions (run fuel disk net u)) /\
    count_progress (run_actions (run fuel disk net u))
    <= List.length (posts (run_actions (run fuel disk net u))) /\
    (In EvFinish (events (run_actions (run fuel disk net u))) ->
     totalChunks u <= chunkCount (run_state (run fuel disk net u))) /\
    retries_left (run_actions (run fuel disk net u))
    = map (fun j => retries u - S j)
        (seq (retriesCount u)
           (count_retries (run_actions (run fuel disk net u)))).
Proof.
  induction fuel as [|fuel IH]; intros disk net u.
  - unfold run_state, run_actions, count_progress, count_retries,
      retries_left.
    cbn. repeat split; try lia; try tauto.
  - destruct (sendChunks disk net u) as [[[u1 net1] acts] again] eqn:E.
    rewrite (run_S _ _ _ _ _ _ _ _ E).
    pose proof (step_shape_sound _ _ _ _ _ _ _ E) as (St & Sh & _).
    assert (T : totalChunks u1 = totalChunks u) by apply St.
    assert (R : retries u1 = retries u) by apply St.
    destruct (IH disk net1 u1) as (I1 & I2 & I3 & I4). clear IH.
    rewrite T in I3. rewrite R in I4.
    assert (Hp : forall rest,
               count_progress (acts ++ rest)
               = count_progress acts + count_progress rest).
    { intros rest. unfold count_progress.
      now rewrite events_app, filter_app, length_app. }
    assert (Hl : forall rest,
               retries_left (acts ++ rest)
               = retries_left acts ++ retries_left rest).
    { intros rest. unfold retries_left.
      now rewrite events_app, flat_map_app. }
    destruct Sh as [? ? P _ _ _ C Rc Ag Ev | ? ? P _ _ _ _ C Rc Ag Ev
                   | P C Rc Ag Ev].
    + assert (P1 : count_progress acts = 1).
      { unfold count_progress. rewrite Ev. now destruct again. }
      assert (L0 : retries_left acts = [] /\ count_retries acts = 0).
      { unfold retries_left, count_retries. rewrite Ev.
        now destruct again. }
      destruct L0 as (L0 & K0).
      destruct again; unfold run_state, run_actions in *; cbn [fst snd].
      * rewrite Hp, Hl, events_app, posts_app, length_app, count_retries_app,
          P, P1, L0, K0, I1, I4, C, Rc.
        cbn [List.length app Nat.add].
        split; [lia|]. split; [lia|]. split; [|reflexivity].
        intros Fin. apply in_app_or in Fin. destruct Fin as [Fin | Fin].
        -- rewrite Ev in Fin. cbn in Fin. destruct Fin as [X | []].
           discriminate X.
        -- specialize (I3 Fin). rewrite I1, C in I3. exact I3.
      * symmetry in Ag. apply Nat.ltb_ge in Ag.
        rewrite P, P1, L0, K0, C. cbn [seq map List.length].
        repeat split; lia.
    + subst again. unfold run_state, run_actions; cbn [fst snd].
      unfold count_progress, retries_left, count_retries. rewrite Ev, P.
      cbn. rewrite C. split; [lia|]. split; [lia|]. split; [|reflexivity].
      intros [X | []]. discriminate X.
    + assert (P0 : count_progress acts = 0).
      { unfold count_progress. rewrite Ev. now destruct again. }
      destruct again; unfold run_state, run_actions in *; cbn [fst snd].
      * symmetry in Ag. apply Nat.ltb_lt in Ag.
        assert (K1 : count_retries acts = 1)
          by (unfold count_retries; now rewrite Ev).
        assert (L1 : retries_left acts = [retries u - S (retriesCount u)])
          by (unfold retries_left; now rewrite Ev).
        rewrite Hp, Hl, events_app, posts_app, length_app, count_retries_app,
          P0, K1, L1, I1, I4, C, Rc.
        cbn [app Nat.add seq map].
        split; [lia|]. split; [lia|]. split; [|reflexivity].
        intros Fin. apply in_app_or in Fin. destruct Fin as [Fin | Fin].
        -- rewrite Ev in Fin. cbn in Fin. destruct Fin as [X | []].
           discriminate X.
        -- specialize (I3 Fin). rewrite I1, C in I3. exact I3.
      * rewrite P0. unfold retries_left, count_retries. rewrite Ev.
        cbn. rewrite C. split; [lia|]. split; [lia|]. split; [|reflexivity].
        intros [X | []]. discriminate X.
Qed.

(** X13.  Whatever the answers of the network, a session emits one
    progress event per accepted chunk and no other: their number is the
    value of [chunkCount] at the end, at most [totalChunks], and exactly
    [totalChunks] when the session finishes. *)
Theorem one_progress_event_per_accepted_chunk (fs : Fs.t) (uniq : nat)
  (net : transport) (p : params) (u : uploader) (acts : list action) :
  constructor fs uniq p = Returned u ->
  session fs uniq net p = Returned acts ->
  count_progress acts = chunkCount (run_state (startSending fs net u)) /\
  count_progress acts <= totalChunks u /\
  (In EvFinish (events acts) -> count_progress acts = totalChunks u).
Proof.
  intros C S.
  destruct (session_unfolded fs uniq net p u C)
    as (e & Hf & (Cp & Lb & Tc & Cc & Rc & Rp) & _ & Hn & Hy & S').
  rewrite S' in S. injection S as <-.
  destruct (Fs.readable e).
  - rewrite (Hy eq_refl) in *.
    set (u1 := set_fd u (FdOpen 0)) in *.
    destruct (run_progress (budget u1) (Fs.contents e) net u1)
      as (P1 & P2 & P3 & _).
    change (chunkCount u1) with (chunkCount u) in *.
    change (totalChunks u1) with (totalChunks u) in *.
    rewrite Cc in *. cbn [Nat.add] in P1.
    pose proof (run_posts_within_file (budget u1) (Fs.contents e) net u1
                  Cp Lb) as B.
    cbn [fd set_fd u1 chunkSizeBytes] in B.
    destruct (Math_ceil_div_spec (List.length (Fs.contents e)) _ Cp)
      as [T1 _].
    rewrite <- Tc in T1.
    assert (Hle : count_progress
                    (run_actions (run (budget u1) (Fs.contents e) net u1))
                  <= totalChunks u) by nia.
    split; [now rewrite P1|]. split; [exact Hle|].
    intros Fin. specialize (P3 Fin). lia.
  - rewrite (Hn eq_refl). unfold run_state, run_actions, count_progress.
    cbn. rewrite Cc. repeat split; try lia.
    intros [X | []]. discriminate X.
Qed.

Lemma one_progress_event_witness :
  count_progress
    (Sample.actions_of
       (session (Sample.fs_with 12) 7 (Sample.answers [200; 503; 200])
          (Sample.settings 4 5 None)))
  <= totalChunks (Sample.constructed 12 4 5 None).
Proof.
  apply (one_progress_event_per_accepted_chunk (Sample.fs_with 12) 7
           (Sample.answers [200; 503; 200]) (Sample.settings 4 5 None)
           (Sample.constructed 12 4 5 None)).
  - reflexivity.
  - vm_compute. reflexivity.
Defined.

(** X14.  Whatever the answers of the network, the retry notices of a
    session announce [retries - 1], [retries - 2], ... retries left, in
    this order and whichever chunks they are about: the count goes down by
    one from notice to notice and is never set back. *)
Theorem retries_left_count_down (fs : Fs.t) (uniq : nat)
  (net : transport) (p : params) (u : uploader) (acts : list action) :
  constructor fs uniq p = Returned u ->
  session fs uniq net p = Returned acts ->
  retries_left acts
  = map (fun j => retries u - S j) (seq 0 (count_retries acts)).
Proof.
  intros C S.
  destruct (session_unfolded fs uniq net p u C)
    as (e & _ & (_ & _ & _ & _ & Rc & _) & _ & Hn & Hy & S').
  rewrite S' in S. injection S as <-.
  destruct (Fs.readable e).
  - rewrite (Hy eq_refl).
    set (u1 := set_fd u (FdOpen 0)).
    destruct (run_progress (budget u1) (Fs.contents e) net u1)
      as (_ & _ & _ & L).
    change (retries u1) with (retries u) in L.
    change (retriesCount u1) with (retriesCount u) in L.
    now rewrite Rc in L.
  - rewrite (Hn eq_refl). reflexivity.
Qed.

Lemma retries_left_witness :
  retries_left
    (Sample.actions_of
       (session (Sample.fs_with 12) 7 (Sample.answers [503; 200; 408])
          (Sample.settings 4 3 None)))
  = map (fun j => retries (Sample.constructed 12 4 3 None) - S j)
      (seq 0
         (count_retries
            (Sample.actions_of
               (session (Sample.fs_with 12) 7
                  (Sample.answers [503; 200; 408])
                  (Sample.settings 4 3 None))))).
Proof.
  apply (retries_left_count_down (Sample.fs_with 12) 7
           (Sample.answers [503; 200; 408]) (Sample.settings 4 3 None)
           (Sample.constructed 12 4 3 None)).
  - reflexivity.
  - vm_compute. reflexivity.
Defined.

(** * Chunk sizes that are not a whole number of bytes *)

(** For a whole number of bytes the definitions for any product are the
    ones used above. *)

Lemma whole_bytes_nat (n : nat) :
  Fractional.whole_bytes (inject_Z (Z.of_nat n)) = n.
Proof.
  unfold Fractional.whole_bytes. rewrite Qfloor_Z. apply Nat2Z.id.
Qed.

Lemma below_nat (nread n : nat) :
  Fractional.below nread (inject_Z (Z.of_nat n)) = (nread <? n).
Proof.
  unfold Fractional.below, Qle_bool, inject_Z. cbn [Qnum Qden].
  rewrite !Z.mul_1_r.
  destruct (Z.leb_spec (Z.of_nat n) (Z.of_nat nread));
    destruct (Nat.ltb_spec nread n); simpl; try reflexivity; lia.
Qed.

Lemma totalChunks_nat (size n : nat) :
  0 < n ->
  Fractional.totalChunks_of size (inject_Z (Z.of_nat n))
  = JS.Math_ceil_div size n.
Proof.
  intros Hn. unfold Fractional.totalChunks_of, JS.Math_ceil_div.
  f_equal. apply Qceiling_comp.
  assert (Hp : Z.of_nat n = Z.pos (Pos.of_nat n)).
  { rewrite <- positive_nat_Z, Nat2Pos.id by lia. reflexivity. }
  rewrite Hp. symmetry. apply Qmake_Qdiv.
Qed.

Lemma getChunk_nat (n : nat) (disk : bytes) (u : uploader) :
  chunkSizeBytes u = n ->
  Fractional.getChunk (inject_Z (Z.of_nat n)) disk u = getChunk disk u.
Proof.
  intros H. unfold Fractional.getChunk, getChunk.
  rewrite whole_bytes_nat, H.
  destruct (Fs.read disk (fd u) (chunk u) n) as [[[f buffer] nread]|er];
    [|reflexivity].
  cbn [chunkSizeBytes set_chunk set_fd]. now rewrite below_nat, H.
Qed.

Lemma sendChunks_nat (n : nat) (disk : bytes) (net : transport)
  (u : uploader) :
  chunkSizeBytes u = n ->
  Fractional.sendChunks (inject_Z (Z.of_nat n)) disk net u
  = sendChunks disk net u.
Proof.
  intros H. unfold Fractional.sendChunks, sendChunks.
  now rewrite (getChunk_nat n disk u H).
Qed.

Lemma run_nat (n fuel : nat) :
  forall (disk : bytes) (net : transport) (u : uploader),
    chunkSizeBytes u = n ->
    Fractional.run (inject_Z (Z.of_nat n)) fuel disk net u
    = run fuel disk net u.
Proof.
  induction fuel as [|fuel IH]; intros disk net u H; [reflexivity|].
  cbn [Fractional.run run]. rewrite (sendChunks_nat n disk net u H).
  destruct (sendChunks disk net u) as [[[u1 net1] acts] again] eqn:E.
  apply step_shape_sound in E. destruct E as ((_ & _ & _ & Cs & _) & _ & _).
  destruct again; [|reflexivity].
  rewrite IH by congruence. reflexivity.
Qed.

Lemma chunkSizeBytes_of_nat (n : nat) :
  Fractional.chunkSizeBytes_of (inject_Z (Z.of_nat n))
  = inject_Z (Z.of_nat match n with
                       | S _ => n
                       | 0 => default_chunkSizeBytes
                       end).
Proof.
  unfold Fractional.chunkSizeBytes_of.
  destruct (Qeq_bool (inject_Z (Z.of_nat n)) 0) eqn:E.
  - apply Qeq_bool_eq in E. unfold Qeq, inject_Z in E. cbn [Qnum Qden] in E.
    destruct n; [reflexivity | lia].
  - destruct n; [discriminate E | reflexivity].
Qed.

Lemma constructor_nat (fs : Fs.t) (uniq : nat) (p : params) (n : nat) :
  Fractional.constructor fs uniq p (inject_Z (Z.of_nat n))
  = constructor fs uniq (with_chunk_bytes p n).
Proof.
  unfold Fractional.constructor, constructor, with_chunk_bytes.
  cbn [p_endpoint p_file p_headers p_postParams p_chunkSizeBytes p_retries
       p_delayBeforeRetry].
  rewrite chunkSizeBytes_of_nat.
  set (csb := match n with S _ => n | 0 => default_chunkSizeBytes end).
  assert (Hc : 0 < csb).
  { subst csb. destruct n; [apply default_chunkSizeBytes_positive | lia]. }
  replace (match n with S n0 => S n0 | 0 => default_chunkSizeBytes end)
    with csb by (subst csb; destruct n; reflexivity).
  assert (Hp : Qle_bool 0 (inject_Z (Z.of_nat csb)) = true).
  { apply Qle_bool_iff. unfold Qle, inject_Z. cbn [Qnum Qden]. lia. }
  cbv zeta. rewrite Hp, whole_bytes_nat. cbn [negb].
  cbn [endpoint file headers chunkSizeBytes].
  destruct (validateParams _); [|reflexivity].
  destruct (Fs.statSync fs (p_file p)) as [size|er]; [|reflexivity].
  now rewrite totalChunks_nat by assumption.
Qed.

Lemma session_nat (fs : Fs.t) (uniq : nat) (net : transport) (p : params)
  (n : nat) :
  Fractional.session fs uniq net p (inject_Z (Z.of_nat n))
  = session fs uniq net (with_chunk_bytes p n).
Proof.
  unfold Fractional.session, session.
  rewrite constructor_nat, chunkSizeBytes_of_nat.
  destruct (constructor fs uniq (with_chunk_bytes p n)) as [u|er] eqn:C;
    [|reflexivity].
  destruct (constructor_fields _ _ _ _ C)
    as (e & _ & _ & _ & Cs & _).
  cbn [p_chunkSizeBytes with_chunk_bytes] in Cs.
  unfold Fractional.startSending, startSending.
  destruct (Fs.open fs (file u)) as [f|er]; [|reflexivity].
  cbv zeta. rewrite run_nat; [reflexivity|].
  cbn [chunkSizeBytes set_fd]. rewrite Cs. destruct n; reflexivity.
Qed.

(** X15.  For every chunk size that is a whole number
    [n > 0] of bytes and every file of [s] bytes: [totalChunks] is the
    ceiling of [s / n], set by the constructor and never changed; when every
    chunk is accepted, exactly [totalChunks] chunks are read and sent, all of
    [n] bytes but possibly the last, and put end to end they are the file, so
    their sizes add up to [s].  A file of 25 units in chunks of 10 units
    gives three chunks of 10, 10 and 5 units. *)
Theorem whole_byte_chunks_cover_the_file (fs : Fs.t) (uniq : nat)
  (net : transport) (p : params) (e : Fs.entry) (n : nat)
  (pp : list (string * string)) :
  p_endpoint p <> "" ->
  fs (p_file p) = Some e ->
  Fs.readable e = true ->
  p_postParams p = Some pp ->
  0 < n ->
  always_accepted net ->
  exists u acts,
    Fractional.constructor fs uniq p (inject_Z (Z.of_nat n)) = Returned u /\
    Fractional.session fs uniq net p (inject_Z (Z.of_nat n)) = Returned acts /\
    List.length (Fs.contents e) <= totalChunks u * n
      < List.length (Fs.contents e) + n /\
    totalChunks u = (List.length (Fs.contents e) + n - 1) / n /\
    (forall fuel net' f,
       totalChunks
         (run_state
            (Fractional.run (inject_Z (Z.of_nat n)) fuel (Fs.contents e) net'
               (set_fd u f)))
       = totalChunks u) /\
    List.length (posts acts) = totalChunks u /\
    Forall (fun q => List.length (req_file q) = n) (removelast (posts acts)) /\
    List.concat (map req_file (posts acts)) = Fs.contents e /\
    list_sum (map (fun q => List.length (req_file q)) (posts acts))
      = List.length (Fs.contents e) /\
    (forall m,
       0 < m -> n = 10 * m -> List.length (Fs.contents e) = 25 * m ->
       totalChunks u = 3 /\
       map (fun q => List.length (req_file q)) (posts acts)
         = [10 * m; 10 * m; 5 * m]).
Proof.
  intros He Hf Hr Hp Hn AA.
  rewrite constructor_nat, session_nat.
  set (p' := with_chunk_bytes p n).
  destruct (session_of_readable_file fs uniq net p' e n He Hf Hr eq_refl Hn)
    as (u & C & HS & Pp & Cs & Lb & R & Cc & Rc & Tc).
  change (p_postParams p') with (p_postParams p) in Pp.
  set (disk := Fs.contents e) in *.
  set (u1 := set_fd u (FdOpen 0)) in *.
  set (acts := run_actions (run (budget u1) disk net u1)) in *.
  destruct (Math_ceil_div_spec (List.length disk) n Hn) as [T1 T2].
  rewrite <- Tc in T1, T2.
  assert (Main : List.length (posts acts) = totalChunks u /\
                 Forall (fun q => List.length (req_file q) = n)
                   (removelast (posts acts)) /\
                 List.concat (map req_file (posts acts)) = disk).
  { destruct (totalChunks u) as [|k] eqn:Tn.
    - assert (Hd : disk = [])
        by (destruct disk; [reflexivity | simpl in T1; lia]).
      subst acts. rewrite Hd, run_nothing_to_send.
      repeat split; constructor.
    - destruct (accepting_run k disk net u1 0 pp (budget u1))
        as (_ & Ln & Ct & Fa & _).
      + subst u1. fields. now rewrite Pp.
      + subst u1. fields. lia.
      + subst u1. fields. lia.
      + reflexivity.
      + assumption.
      + subst u1. fields. lia.
      + subst u1. fields. rewrite Cs. lia.
      + unfold budget. subst u1. fields. lia.
      + subst u1. fields_in Fa. rewrite Cs in Fa.
        repeat split; assumption. }
  destruct Main as (Ln & Fa & Ct).
  assert (Sum : list_sum (map (fun q => List.length (req_file q)) (posts acts))
                = List.length disk).
  { transitivity (List.length (List.concat (map req_file (posts acts)))).
    - now rewrite length_concat, map_map.
    - now rewrite Ct. }
  exists u, acts.
  split; [assumption|]. split; [assumption|]. split; [lia|].
  split.
  { apply Nat.div_unique
      with (r := List.length disk + n - 1 - n * totalChunks u); nia. }
  split.
  { intros fuel net' f.
    rewrite run_nat by (cbn [chunkSizeBytes set_fd]; exact Cs).
    pose proof (run_same_settings fuel disk net' (set_fd u f))
      as (_ & _ & _ & _ & _ & _ & T).
    exact T. }
  split; [assumption|]. split; [assumption|]. split; [assumption|].
  split; [assumption|].
  intros m Hm Ec Es.
  assert (T3 : totalChunks u = 3) by nia.
  split; [assumption|].
  rewrite T3 in Ln.
  destruct (posts acts) as [|q1 [|q2 [|q3 [|q4 l]]]]; try discriminate.
  cbn [removelast] in Fa. inversion Fa as [|? ? F1 Fa']. subst.
  inversion Fa' as [|? ? F2 _]. subst.
  cbn [map] in Sum. unfold list_sum in Sum. cbn [fold_right] in Sum.
  cbn [map]. rewrite F1, F2 in *. repeat f_equal; lia.
Qed.

(** Ten bytes in chunks of four. *)
Lemma whole_byte_chunks_witness :
  exists u acts,
    Fractional.constructor (Sample.fs_with 10) 7
      (Sample.unsized 5 (Some [])) (inject_Z (Z.of_nat 4)) = Returned u /\
    Fractional.session (Sample.fs_with 10) 7 (Sample.answers [])
      (Sample.unsized 5 (Some [])) (inject_Z (Z.of_nat 4))
    = Returned acts /\
    totalChunks u = 3 /\
    List.concat (map req_file (posts acts)) = Sample.content 10.
Proof.
  destruct (whole_byte_chunks_cover_the_file (Sample.fs_with 10) 7
              (Sample.answers []) (Sample.unsized 5 (Some []))
              {| Fs.contents := Sample.content 10; Fs.readable := true |}
              4 [])
    as (u & acts & C & HS & T & _ & _ & _ & _ & Ct & _).
  - discriminate.
  - reflexivity.
  - reflexivity.
  - reflexivity.
  - lia.
  - intros k. exists 200. split.
    + unfold Sample.answers. now destruct k as [|[|k]].
    + unfold accepted_status. simpl. auto.
  - exists u, acts. repeat split; try assumption.
    simpl in T. lia.
Defined.

(** X16.  When the product [chunkSize * 1024 * 1024] is not a whole
    number, every chunk that is read is flagged as the last one (so that the
    post parameters are asked for with every request), and holds no more
    bytes than the integer part of the product. *)
Theorem every_chunk_is_flagged_last (c : Q) (disk : bytes) (u u1 : uploader)
  (acts : list action) (out : chunk_out) :
  (inject_Z (Qfloor c) < c)%Q ->
  Fractional.getChunk c disk u = (u1, acts, Resolved (Some out)) ->
  lastChunk out = true /\
  List.length (data out) <= Fractional.whole_bytes c.
Proof.
  intros Hc H. unfold Fractional.getChunk, Fs.read in H.
  destruct (fd u) as [| pos |]; try discriminate H.
  cbv zeta in H.
  set (got := firstn (Fractional.whole_bytes c) (skipn pos disk)) in *.
  assert (Lg : List.length got <= Fractional.whole_bytes c)
    by (subst got; rewrite length_firstn; lia).
  destruct (List.length got =? 0) eqn:Z.
  - cbn [fd set_chunk set_fd Fs.close] in H. discriminate H.
  - apply Nat.eqb_neq in Z.
    assert (B : Fractional.below (List.length got) c = true).
    { unfold Fractional.below.
      destruct (Qle_bool c (inject_Z (Z.of_nat (List.length got)))) eqn:E;
        [|reflexivity].
      exfalso. apply Qle_bool_iff in E.
      unfold Fractional.whole_bytes in Lg.
      assert (Hz : (Z.of_nat (List.length got) <= Qfloor c)%Z) by lia.
      apply (Qlt_irrefl c).
      eapply Qle_lt_trans; [exact E|].
      eapply Qle_lt_trans; [|exact Hc].
      rewrite <- Zle_Qle. exact Hz. }
    rewrite B in H. injection H as _ _ <-.
    cbn [lastChunk data]. split; [reflexivity|].
    rewrite length_firstn. lia.
Qed.

(** The first read of five bytes at two bytes and a half. *)
Lemma every_chunk_is_flagged_last_witness :
  exists u1 out,
    Fractional.getChunk (5 # 2) (Sample.content 5) (Sample.opened 5 2 5 None)
    = (u1, [], Resolved (Some out)) /\
    lastChunk out = true /\
    List.length (data out) <= 2.
Proof.
  eexists. eexists. split; [vm_compute; reflexivity|].
  eapply (every_chunk_is_flagged_last (5 # 2) (Sample.content 5)
            (Sample.opened 5 2 5 None)).
  - reflexivity.
  - vm_compute. reflexivity.
Defined.

(** C6, where the code departs from it.  Five bytes with a chunk size of
    two and a half bytes ([chunkSize = 2.5 / (1024 * 1024)]), every chunk
    accepted: [totalChunks] is [ceil(5 / 2.5) = 2]; the buffer and each read
    take two bytes, so that two requests of two bytes each are sent (both
    flagged last, both with the post parameters) and the finish event is
    emitted.  The first chunk does not hold [c] bytes, the bytes of the
    chunks add up to 4, and the fifth byte of the file is never sent. *)
Theorem fractional_chunk_size_drops_bytes :
  Fractional.totalChunks_of 5 (5 # 2) = 2
  /\
  map (fun q => (req_chunk_number q, req_fields q, req_file q))
    (posts
       (Sample.actions_of
          (Fractional.session (Sample.fs_with 5) 7 (Sample.answers [])
             (Sample.unsized 5 (Some [("a", "b")])) (5 # 2))))
  = [(Some (HNum 0), [("a", "b")], [Byte.x01; Byte.x02]);
     (Some (HNum 1), [("a", "b")], [Byte.x03; Byte.x04])]
  /\
  events
    (Sample.actions_of
       (Fractional.session (Sample.fs_with 5) 7 (Sample.answers [])
          (Sample.unsized 5 (Some [("a", "b")])) (5 # 2)))
  = [EvProgress 50; EvFinish; EvProgress 100]
  /\
  list_sum
    (map (fun q => List.length (req_file q))
       (posts
          (Sample.actions_of
             (Fractional.session (Sample.fs_with 5) 7 (Sample.answers [])
                (Sample.unsized 5 (Some [("a", "b")])) (5 # 2)))))
  <> List.length (Sample.content 5).
Proof.
  split; [reflexivity|]. split; [vm_compute; reflexivity|].
  split; [vm_compute; reflexivity|]. vm_compute. discriminate.
Qed.
